(** * Portfolio analytics: a shallow embedding of [src/ClassPortfolio.py]

    The class [Portfolio] is embedded method by method.  Conventions:

    - a Python [float] is an exact rational ([Q]); the value [NaN] of a
      pandas cell or of a metric is [None].  What is proved over [Q] is
      kept to what rounding does not touch: guards and comparisons, which
      attributes and keys are written, and equalities between the terms
      the code computes.  Where rounding decides what the code returns,
      module [Binary64] repeats the lines concerned over IEEE 754 binary64
      numbers and evaluates them;
    - a Python [dict] is an insertion-ordered association list ([Dict.t]),
      because the first holding in iteration order fixes the date index of
      the tables built from the holdings;
    - a method is a function from the receiver ([self]) to the receiver
      after the call, paired with either the exception raised or the value
      returned (monad [M]): a Python exception does not roll [self] back;
    - calls to [logging] are not modelled. *)

From Stdlib Require Import QArith Qround Qabs Lqa Lia ZArith List String Bool
  Permutation Sorted DecimalString.
From Stdlib Require PrimFloat Uint63.
Import ListNotations.

Local Open Scope Q_scope.
Local Open Scope string_scope.
Local Open Scope list_scope.

(** ** Numbers *)

(** Python's [a < b], [a <= b] and [a == b] on floats. *)
Definition Qltb (a b : Q) : bool := negb (Qle_bool b a).
Definition Qleb (a b : Q) : bool := Qle_bool a b.
Definition Qeqb (a b : Q) : bool := Qeq_bool a b.

(** A cell that may be [NaN]. *)
Definition float := option Q.
Definition NaN : float := None.

Definition lift2 (f : Q -> Q -> Q) (a b : float) : float :=
  match a, b with
  | Some x, Some y => Some (f x y)
  | _, _ => NaN
  end.

Definition fadd := lift2 Qplus.
Definition fsub := lift2 Qminus.
Definition fmul := lift2 Qmult.

(** [a < b] and [a <= b] on cells: a comparison with [NaN] is false. *)
Definition fltb (a b : float) : bool :=
  match a, b with
  | Some x, Some y => Qltb x y
  | _, _ => false
  end.

Definition fleb (a b : float) : bool :=
  match a, b with
  | Some x, Some y => Qleb x y
  | _, _ => false
  end.

(** [sum(xs)]: Python's left fold starting from 0. *)
Definition Qsum (xs : list Q) : Q := fold_left Qplus xs 0.

(** ** Insertion-ordered dictionaries *)

Module Dict.
Section Dict.
Context {V : Type}.

Definition t := list (string * V).

Definition empty : t := [].

(** [d.get(k)] *)
Fixpoint get (k : string) (d : t) : option V :=
  match d with
  | [] => None
  | (k', v) :: r => if String.eqb k k' then Some v else get k r
  end.

(** [k in d] *)
Definition mem (k : string) (d : t) : bool :=
  match get k d with Some _ => true | None => false end.

(** [d[k] = v]: an existing key keeps its position, a new key goes last. *)
Fixpoint set (k : string) (v : V) (d : t) : t :=
  match d with
  | [] => [(k, v)]
  | (k', v') :: r =>
      if String.eqb k k' then (k, v) :: r else (k', v') :: set k v r
  end.

(** [del d[k]] *)
Fixpoint del (k : string) (d : t) : t :=
  match d with
  | [] => []
  | (k', v') :: r =>
      if String.eqb k k' then r else (k', v') :: del k r
  end.

Definition keys (d : t) : list string := map fst d.
Definition values (d : t) : list V := map snd d.

(** The keys of a Python dict are pairwise distinct. *)
Definition wf (d : t) : Prop := NoDup (keys d).
End Dict.
Arguments t : clear implicits.
End Dict.

(** ** pandas series and tables *)

(** A date is a day number (days since 1970-01-01, a Thursday). *)
Definition date := Z.

(** A [pd.Series] indexed by dates. *)
Definition Series := list (date * float).

(** A [pd.DataFrame]: a date index and named columns, each column aligned
    with the index by position. *)
Record DataFrame := mkDataFrame {
  df_index : list date;
  df_columns : Dict.t (list float)
}.

Definition empty_frame : DataFrame := mkDataFrame [] Dict.empty.

(** [s.empty] and [df.empty] *)
Definition series_empty (s : Series) : bool :=
  match s with [] => true | _ => false end.

Definition frame_empty (df : DataFrame) : bool :=
  match df_index df, df_columns df with
  | _ :: _, _ :: _ => false
  | _, _ => true
  end.

(** [s.dropna()] *)
Definition dropna (s : Series) : Series :=
  filter (fun c => match snd c with Some _ => true | None => false end) s.

(** The values of a series without its undefined entries. *)
Fixpoint defined (s : Series) : list Q :=
  match s with
  | [] => []
  | (_, Some x) :: r => x :: defined r
  | (_, None) :: r => defined r
  end.

(** The cell of [s] at date [d]; [NaN] when [d] is not in the index. *)
Fixpoint at_date (d : date) (s : Series) : float :=
  match s with
  | [] => NaN
  | (d', x) :: r => if Z.eqb d d' then x else at_date d r
  end.

(** [df[name] = s]: the first column of a fresh frame brings its index;
    afterwards a column is aligned to the index the frame already has. *)
Definition assign_column (name : string) (s : Series) (df : DataFrame)
  : DataFrame :=
  match df_index df, df_columns df with
  | [], [] => mkDataFrame (map fst s) [(name, map snd s)]
  | idx, cols =>
      mkDataFrame idx (Dict.set name (map (fun d => at_date d s) idx) cols)
  end.

(** ** Holdings *)

(** Modelled from the spec: the class [Stock] of [ClassStock.py], which is
    not part of the sources at hand.  The spec (sections 3 and 6) gives a
    holding a symbol, an invested amount, a current monetary value, a share
    quantity and a risk-free-rate reference, with raw mutable fields for
    value and investment, [amount()] reading the current monetary value, and
    the close and adjusted-return series supplied by the instrument.  The
    docstring of [getWeights], which calls [getAmount()], says the same:
    the fractions are "based on self.stocks[sym].value". *)
Record Stock := mkStock {
  symbol : string;
  investment : Q;
  value : Q;
  risk_free_rate : Q;
  quantity : Q;
  close : Series;
  adjusted_returns : Series
}.

Definition getAmount (st : Stock) : Q := value st.
Definition getClose (st : Stock) : Series := close st.
Definition getAdjustedReturns_stock (st : Stock) : Series := adjusted_returns st.

Definition set_value (x : Q) (st : Stock) : Stock :=
  mkStock (symbol st) (investment st) x (risk_free_rate st) (quantity st)
          (close st) (adjusted_returns st).

Definition set_investment (x : Q) (st : Stock) : Stock :=
  mkStock (symbol st) x (value st) (risk_free_rate st) (quantity st)
          (close st) (adjusted_returns st).

(** ** The portfolio object *)

(** One row of the per-path metrics table of the simulator. *)
Record MetricsRow := mkMetricsRow {
  Simulation : string;
  Sharpe_Ratio : float;
  Sortino_Ratio : float;
  Max_Drawdown : float;
  VaR_95 : float;
  CVaR_95 : float
}.

Record Portfolio := mkPortfolio {
  stocks : Dict.t Stock;
  RF : Q;
  cash_balance : Q;
  weights : Dict.t Q;
  portfolio_returns : option Series;
  portfolio_excess_returns : option Series;
  market_close : option Series;
  simulated_portfolio_values : option DataFrame;
  simulated_metrics : option (list MetricsRow)
}.

Definition with_stocks (x : Dict.t Stock) (p : Portfolio) : Portfolio :=
  mkPortfolio x (RF p) (cash_balance p) (weights p) (portfolio_returns p)
    (portfolio_excess_returns p) (market_close p)
    (simulated_portfolio_values p) (simulated_metrics p).

Definition with_weights (x : Dict.t Q) (p : Portfolio) : Portfolio :=
  mkPortfolio (stocks p) (RF p) (cash_balance p) x (portfolio_returns p)
    (portfolio_excess_returns p) (market_close p)
    (simulated_portfolio_values p) (simulated_metrics p).

Definition with_portfolio_returns (x : option Series) (p : Portfolio)
  : Portfolio :=
  mkPortfolio (stocks p) (RF p) (cash_balance p) (weights p) x
    (portfolio_excess_returns p) (market_close p)
    (simulated_portfolio_values p) (simulated_metrics p).

Definition with_portfolio_excess_returns (x : option Series) (p : Portfolio)
  : Portfolio :=
  mkPortfolio (stocks p) (RF p) (cash_balance p) (weights p)
    (portfolio_returns p) x (market_close p)
    (simulated_portfolio_values p) (simulated_metrics p).

Definition with_simulated_portfolio_values (v : DataFrame) (p : Portfolio)
  : Portfolio :=
  mkPortfolio (stocks p) (RF p) (cash_balance p) (weights p)
    (portfolio_returns p) (portfolio_excess_returns p) (market_close p)
    (Some v) (simulated_metrics p).

Definition with_simulated_metrics (m : list MetricsRow) (p : Portfolio)
  : Portfolio :=
  mkPortfolio (stocks p) (RF p) (cash_balance p) (weights p)
    (portfolio_returns p) (portfolio_excess_returns p) (market_close p)
    (simulated_portfolio_values p) (Some m).

(** ** Methods as state transformers that may raise *)

Inductive exn :=
| ValueError (msg : string)
| KeyError (key : string).

Definition M (A : Type) : Type := Portfolio -> Portfolio * (exn + A).

Definition ret {A} (a : A) : M A := fun self => (self, inr a).

Definition bind {A B} (c : M A) (k : A -> M B) : M B :=
  fun self =>
    match c self with
    | (self', inl e) => (self', inl e)
    | (self', inr a) => k a self'
    end.

Definition raise {A} (e : exn) : M A := fun self => (self, inl e).
Definition get_self : M Portfolio := fun self => (self, inr self).
Definition modify (f : Portfolio -> Portfolio) : M unit :=
  fun self => (f self, inr tt).

Declare Scope portfolio_scope.
Delimit Scope portfolio_scope with pf.
Notation "x <- c ;; k" := (bind c (fun x => k))
  (at level 61, c at next level, right associativity) : portfolio_scope.
Notation "c ;; k" := (bind c (fun _ => k))
  (at level 61, right associativity) : portfolio_scope.
Local Open Scope portfolio_scope.

(** The receiver after the call, and what the call raised or returned. *)
Definition state_after {A} (r : Portfolio * (exn + A)) : Portfolio := fst r.
Definition outcome {A} (r : Portfolio * (exn + A)) : exn + A := snd r.

(** ** Weight ledger *)

Definition total_value (d : Dict.t Stock) : Q :=
  Qsum (map getAmount (Dict.values d)).

(** [Portfolio.getWeights] *)
Definition getWeights : M (Dict.t Q) :=
  self <- get_self ;;
  let total := total_value (stocks self) in
  if Qeqb total 0 then raise (ValueError "Total portfolio value is zero.")
  else
    ret (fold_left
           (fun w (it : string * Stock) =>
              Dict.set (fst it) (getAmount (snd it) / total) w)
           (stocks self) Dict.empty).

(** ** What the class takes from outside

    The instrument data of a newly created holding (share quantity, close
    series, adjusted-return series), the transcendental functions of the
    float library, numpy's global random generator, the order in which
    pandas sorts a ledger and the replayed table, and the per-path
    aggregation that follows a simulation are parameters of the model. *)

(** One record of the transaction ledger ([Type] is already lower-cased);
    [Quantity] and [Price] are cells and may be [NaN]. *)
Inductive Side := buy | sell | other_side.

Record Transaction := mkTransaction {
  tx_Date : date;
  tx_Type : Side;
  tx_Symbol : string;
  tx_Quantity : float;
  tx_Price : float
}.

(** One row of the table the replay engine emits is the [row_dict] of the
    source: a day under the key ["Date"], numbers under ["Cash"],
    ["PortfolioValue"] and, when asked for, under the symbols.  A key
    that a row lacks is a [NaN] cell of the table. *)
Inductive cell :=
| Timestamp (d : date)
| Number (x : float).

Definition Row := Dict.t cell.

Class Externals := {
  (** share quantity, close series and adjusted returns of a symbol *)
  listing : string -> Q * Series * Series;
  (** [np.sqrt], [np.exp] and the float power [x ** y] *)
  sqrt : Q -> Q;
  exp : Q -> Q;
  power : Q -> Q -> Q;
  (** numpy's global generator: [np.random.seed(i)] and a batch of standard
      normal draws, which also advances the generator *)
  RandomState : Type;
  seed : nat -> RandomState;
  standard_normal : RandomState -> nat -> list Q * RandomState;
  (** [transaction_log.sort_values("Date")] *)
  sort_values : list Transaction -> list Transaction;
  (** [dyn_df.sort_values("Date")], on the emitted rows *)
  sort_rows : list Row -> list Row;
  (** the per-path metrics computed from the table of simulated paths,
      or the exception that computation raises *)
  aggregate_metrics : DataFrame -> exn + list MetricsRow
}.

Section Methods.
Context {E : Externals}.

(** [Stock(symbol, invested=.., value=.., risk_free_rate=..)] *)
Definition new_Stock (sym : string) (invested val rf : Q) : Stock :=
  let '(q, c, r) := listing sym in mkStock sym invested val rf q c r.

(** [Portfolio.__init__] *)
Definition init (stocks0 : Dict.t Stock) (rf cash : Q) : exn + Portfolio :=
  let self := mkPortfolio stocks0 rf cash Dict.empty None None None None None in
  match outcome (getWeights self) with
  | inl e => inl e
  | inr w => inr (with_weights w self)
  end.

(** The closing block of [update_stock] ("recalculate weights"). *)
Definition recalculate_weights : M unit :=
  self <- get_self ;;
  if (0 <? List.length (stocks self))%nat then
    w <- getWeights ;;
    modify (with_weights w)
  else modify (with_weights Dict.empty).

(** [Portfolio.update_stock] *)
Definition update_stock (symbol : string) (quantity price : Q)
  (increase : bool) : M unit :=
  self <- get_self ;;
  (if negb (Dict.mem symbol (stocks self)) then
     if negb increase then
       raise (ValueError
                ("Unable to sell " ++ symbol ++ " that is not in the portfolio."))
     else
       modify (with_stocks
                 (Dict.set symbol (new_Stock symbol 0 0 (RF self)) (stocks self)))
   else ret tt) ;;
  self <- get_self ;;
  match Dict.get symbol (stocks self) with
  | None => raise (KeyError symbol)
  | Some stock =>
      let current_value := getAmount stock in
      (if increase then
         (* buy *)
         let stock1 := set_value (current_value + quantity * price) stock in
         let stock2 :=
           set_investment (investment stock1 + quantity * price) stock1 in
         modify (with_stocks (Dict.set symbol stock2 (stocks self)))
       else
         (* sell *)
         if Qltb (value stock) (quantity * price) then
           raise (ValueError ("Insufficient value in " ++ symbol ++ " to sell."))
         else
           let stock1 := set_value (current_value - quantity * price) stock in
           modify (with_stocks (Dict.set symbol stock1 (stocks self))) ;;
           if Qeqb (value stock1) 0 then
             modify (fun s => with_stocks (Dict.del symbol (stocks s)) s)
           else ret tt) ;;
      recalculate_weights
  end.

(** ** Return engine *)

(** [Portfolio.getAdjClosePrices] *)
Definition getAdjClosePrices (self : Portfolio) : DataFrame :=
  fold_left
    (fun data st =>
       let c := getClose st in
       if negb (series_empty c) then assign_column (symbol st) c data
       else data)
    (Dict.values (stocks self)) empty_frame.

Definition same_labels (a b : list string) : bool :=
  forallb (fun x => existsb (String.eqb x) b) a
  && forallb (fun x => existsb (String.eqb x) a) b.

(** One row of [df.dot(w)]: the sum over the columns of cell times weight;
    an undefined cell makes the row undefined. *)
Definition row_dot (cols : Dict.t (list float)) (w : Dict.t Q) (i : nat)
  : float :=
  fold_left
    (fun acc (c : string * list float) =>
       fadd acc
         (fmul (nth i (snd c) NaN)
               (match Dict.get (fst c) w with Some x => Some x | None => NaN end)))
    cols (Some 0).

(** [df.dot(pd.Series(w))]: pandas refuses operands whose labels differ. *)
Definition dot (df : DataFrame) (w : Dict.t Q) : exn + Series :=
  if negb (same_labels (Dict.keys (df_columns df)) (Dict.keys w)) then
    inl (ValueError "matrices are not aligned")
  else
    inr (map (fun id => (snd id, row_dot (df_columns df) w (fst id)))
             (combine (seq 0 (List.length (df_index df))) (df_index df))).

(** [Portfolio.getAdjustedReturns] *)
Definition getAdjustedReturns : M Series :=
  self <- get_self ;;
  let df :=
    fold_left
      (fun df st =>
         let r := getAdjustedReturns_stock st in
         if negb (series_empty r) then assign_column (symbol st) r df else df)
      (Dict.values (stocks self)) empty_frame in
  if frame_empty df then ret []
  else
    match dot df (weights self) with
    | inl e => raise e
    | inr s => ret s
    end.

(** [Portfolio.getPortfolioReturns] *)
Definition getPortfolioReturns : M Series :=
  self <- get_self ;;
  match portfolio_returns self with
  | Some cached => ret cached
  | None =>
      r <- getAdjustedReturns ;;
      if series_empty r then
        modify (with_portfolio_returns (Some [])) ;;
        ret []
      else
        modify (with_portfolio_returns (Some r)) ;;
        ret r
  end.

(** [Portfolio.getPortfolioExcessReturns] *)
Definition getPortfolioExcessReturns : M Series :=
  self <- get_self ;;
  match portfolio_excess_returns self with
  | Some cached => ret cached
  | None =>
      r <- getPortfolioReturns ;;
      let pr := dropna r in
      if series_empty pr then
        modify (with_portfolio_excess_returns (Some [])) ;;
        ret []
      else
        self <- get_self ;;
        let daily_rf := power (1 + RF self) (1 / 252) - 1 in
        let er := map (fun c => (fst c, fsub (snd c) (Some daily_rf))) pr in
        modify (with_portfolio_excess_returns (Some er)) ;;
        ret er
  end.

(** ** Risk metrics: drawdown, VaR, CVaR *)

(** Sorting by insertion, for [np.percentile] and for date indexes. *)
Fixpoint insert {A} (leb : A -> A -> bool) (x : A) (l : list A) : list A :=
  match l with
  | [] => [x]
  | y :: r => if leb x y then x :: l else y :: insert leb x r
  end.

Definition isort {A} (leb : A -> A -> bool) (l : list A) : list A :=
  fold_right (insert leb) [] l.

Definition of_nat (n : nat) : Q := inject_Z (Z.of_nat n).

(** [np.percentile(xs, q)] with the default linear interpolation: the
    virtual index is [q/100 * (n-1)], the result lies between the two
    neighbouring order statistics. *)
Definition percentile (xs : list Q) (q : Q) : exn + float :=
  if Qltb q 0 || Qltb 100 q then
    inl (ValueError "Percentiles must be in the range [0, 100]")
  else
    match xs with
    | [] => inr NaN
    | _ :: _ =>
        let sorted := isort Qle_bool xs in
        let n := Z.of_nat (List.length xs) in
        let pos := (q / 100) * (inject_Z n - 1) in
        let lo := Qfloor pos in
        let hi := Z.min (lo + 1) (n - 1) in
        let gamma := pos - inject_Z lo in
        let a := nth (Z.to_nat lo) sorted 0 in
        let b := nth (Z.to_nat hi) sorted 0 in
        inr (Some (a + (b - a) * gamma))
    end.


(** The virtual index of the [q]-th percentile in a sample of [n]. *)
Definition virtual_index (n : nat) (q : Q) : Q :=
  (q / 100) * (inject_Z (Z.of_nat n) - 1).

(** [s.mean()] of a series without undefined entries *)
Definition mean (xs : list Q) : float :=
  match xs with
  | [] => NaN
  | _ :: _ => Some (Qsum xs / of_nat (List.length xs))
  end.

(** [s.cumprod()] *)
Fixpoint cumprod_from (acc : Q) (xs : list Q) : list Q :=
  match xs with
  | [] => []
  | x :: r => (acc * x) :: cumprod_from (acc * x) r
  end.

Definition cumprod (xs : list Q) : list Q :=
  match xs with
  | [] => []
  | x :: r => x :: cumprod_from x r
  end.

Definition Qmax (a b : Q) : Q := if Qle_bool a b then b else a.
Definition Qmin (a b : Q) : Q := if Qle_bool a b then a else b.

(** [s.expanding().max()]: entry [i] is the maximum of entries [0..i]. *)
Fixpoint expanding_max_from (m : Q) (xs : list Q) : list Q :=
  match xs with
  | [] => []
  | x :: r => Qmax m x :: expanding_max_from (Qmax m x) r
  end.

Definition expanding_max (xs : list Q) : list Q :=
  match xs with
  | [] => []
  | x :: r => x :: expanding_max_from x r
  end.

(** [c / p - 1] for a cumulative value [c] and its running maximum [p].
    pandas yields [NaN] for [0 / 0]; a zero [p] under a non-zero [c] (an
    infinite quotient) does not occur between a cumulative product and
    its running maximum, see [peak_zero_cum_zero] below. *)
Definition drawdown (c p : Q) : float :=
  if Qeqb p 0 then NaN else Some (c / p - 1).

Fixpoint map2 {A B C} (f : A -> B -> C) (xs : list A) (ys : list B) : list C :=
  match xs, ys with
  | x :: xs', y :: ys' => f x y :: map2 f xs' ys'
  | _, _ => []
  end.

(** [s.min()]: undefined entries are skipped; [NaN] when nothing is left. *)
Fixpoint nanmin (xs : list float) : float :=
  match xs with
  | [] => NaN
  | None :: r => nanmin r
  | Some x :: r =>
      match nanmin r with
      | None => Some x
      | Some m => Some (Qmin x m)
      end
  end.

Definition max_drawdown_of (returns : list Q) : float :=
  let cum := cumprod (map (Qplus 1) returns) in
  let peak := expanding_max cum in
  nanmin (map2 drawdown cum peak).

(** [Portfolio.getMaxDrawdown] *)
Definition getMaxDrawdown : M float :=
  r <- getPortfolioReturns ;;
  let pr := dropna r in
  if series_empty pr then ret NaN
  else ret (max_drawdown_of (defined pr)).

(** [Portfolio.getVaR] *)
Definition getVaR (cl : Q) : M float :=
  r <- getPortfolioReturns ;;
  let pr := dropna r in
  if series_empty pr then ret NaN
  else
    match percentile (defined pr) (cl * 100) with
    | inl e => raise e
    | inr v => ret v
    end.

(** [pr[pr <= var_].mean()]: a comparison with [NaN] selects nothing. *)
Definition tail_mean (xs : list Q) (var_ : float) : float :=
  match var_ with
  | None => NaN
  | Some v => mean (filter (fun x => Qleb x v) xs)
  end.

(** [Portfolio.getCVaR] *)
Definition getCVaR (cl : Q) : M float :=
  r <- getPortfolioReturns ;;
  let pr := dropna r in
  if series_empty pr then ret NaN
  else
    var_ <- getVaR cl ;;
    ret (tail_mean (defined pr) var_).

(** ** Transaction replay engine *)

(** [d.get(k, dflt)] *)
Definition get_default {V} (k : string) (dflt : V) (d : Dict.t V) : V :=
  match Dict.get k d with Some x => x | None => dflt end.

(** The body of the loop over the transactions of one day; the state is
    the pair [(current_cash, current_holdings)]. *)
Definition apply_transaction (st : float * Dict.t float) (tx : Transaction)
  : exn + (float * Dict.t float) :=
  let current_cash := fst st in
  let current_holdings := snd st in
  let tsym := tx_Symbol tx in
  let qty := tx_Quantity tx in
  let px := tx_Price tx in
  match tx_Type tx with
  | buy =>
      let cost := fmul qty px in
      if fltb current_cash cost then inr st
      else
        inr (fsub current_cash cost,
             Dict.set tsym
                      (fadd (get_default tsym (Some 0) current_holdings) qty)
                      current_holdings)
  | sell =>
      if fltb (get_default tsym (Some 0) current_holdings) qty then inr st
      else
        let revenue := fmul qty px in
        match Dict.get tsym current_holdings with
        | None => inl (KeyError tsym)
        | Some h =>
            let holdings1 := Dict.set tsym (fsub h qty) current_holdings in
            inr (fadd current_cash revenue,
                 if fleb (fsub h qty) (Some 0) then Dict.del tsym holdings1
                 else holdings1)
        end
  | other_side => inr st
  end.

Fixpoint apply_transactions (st : float * Dict.t float)
  (txs : list Transaction) : exn + (float * Dict.t float) :=
  match txs with
  | [] => inr st
  | tx :: r =>
      match apply_transaction st tx with
      | inl e => inl e
      | inr st' => apply_transactions st' r
      end
  end.

(** Position of a date in an index. *)
Fixpoint index_of (d : date) (idx : list date) : option nat :=
  match idx with
  | [] => None
  | d' :: r =>
      if Z.eqb d d' then Some O
      else match index_of d r with Some i => Some (S i) | None => None end
  end.

(** Marking the holdings to market on one day: the pair of [day_val] and
    [row_dict] runs through the holdings, then [day_val] is written under
    ["PortfolioValue"]. *)
Definition mark_to_market (prices_df : DataFrame) (day : date)
  (by_stock : bool) (st : float * Dict.t float) : Row :=
  let acc :=
    fold_left
      (fun (acc : float * Row) (it : string * float) =>
         match Dict.get (fst it) (df_columns prices_df),
               index_of day (df_index prices_df) with
         | Some col, Some i =>
             let stock_val := fmul (snd it) (nth i col NaN) in
             (fadd (fst acc) stock_val,
              if by_stock then Dict.set (fst it) (Number stock_val) (snd acc)
              else snd acc)
         | _, _ => acc
         end)
      (snd st)
      (fst st, [("Date", Timestamp day); ("Cash", Number (fst st))]) in
  Dict.set "PortfolioValue" (Number (fst acc)) (snd acc).

(** [index.sort_values().unique()] *)
Fixpoint unique (l : list date) : list date :=
  match l with
  | [] => []
  | d :: r => d :: filter (fun x => negb (Z.eqb x d)) (unique r)
  end.

(** The loop over the days: the rows appended to [portfolio_values]. *)
Fixpoint replay (prices_df : DataFrame) (log : list Transaction)
  (by_stock : bool) (st : float * Dict.t float) (days : list date)
  : exn + list Row :=
  match days with
  | [] => inr []
  | day :: later =>
      let day_txs := filter (fun tx => Z.eqb (tx_Date tx) day) log in
      match apply_transactions st day_txs with
      | inl e => inl e
      | inr st' =>
          match replay prices_df log by_stock st' later with
          | inl e => inl e
          | inr rows => inr (mark_to_market prices_df day by_stock st' :: rows)
          end
      end
  end.

(** [Portfolio.getDynamicTimeSeries]; a missing ledger is [None]. *)
Definition getDynamicTimeSeries (transaction_log : option (list Transaction))
  (by_stock : bool) : M (list Row) :=
  match transaction_log with
  | None => ret []
  | Some [] => ret []
  | Some log =>
      self <- get_self ;;
      let prices_df := getAdjClosePrices self in
      if frame_empty prices_df then ret []
      else
        let all_dates := unique (isort Z.leb (df_index prices_df)) in
        let log := sort_values log in
        let current_cash := Some (cash_balance self) in
        let current_holdings :=
          fold_left (fun h (it : string * Stock) =>
                       Dict.set (fst it) (Some (quantity (snd it))) h)
                    (stocks self) Dict.empty in
        match replay prices_df log by_stock (current_cash, current_holdings)
                     all_dates with
        | inl e => raise e
        | inr rows => ret (sort_rows rows)
        end
  end.

(** ** Monte Carlo simulator *)

(** [s.std()]: the sample standard deviation, [NaN] below two entries. *)
Definition std (xs : list Q) : float :=
  match xs with
  | [] | [_] => NaN
  | _ =>
      let n := of_nat (List.length xs) in
      let m := Qsum xs / n in
      Some (sqrt (Qsum (map (fun x => (x - m) * (x - m)) xs) / (n - 1)))
  end.

Definition fcumprod_step (acc : float * list float) (x : float)
  : float * list float :=
  let v := fmul (fst acc) x in (v, snd acc ++ [v]).

(** [np.cumprod] over cells that may be undefined. *)
Definition fcumprod (xs : list float) : list float :=
  match xs with
  | [] => []
  | x :: r => snd (fold_left fcumprod_step r (x, [x]))
  end.

(** Monday is 0; day 0 is a Thursday. *)
Definition weekday (d : date) : Z := ((d + 3) mod 7)%Z.

Definition roll_forward (d : date) : date :=
  if (weekday d =? 5)%Z then (d + 2)%Z
  else if (weekday d =? 6)%Z then (d + 1)%Z
  else d.

(** [pd.bdate_range(start=.., periods=..)] *)
Fixpoint bdate_range (start : date) (periods : nat) : list date :=
  match periods with
  | O => []
  | S n =>
      let s := roll_forward start in
      s :: bdate_range (s + 1)%Z n
  end.

(** Decimal rendering of [i] in an f-string. *)
Definition str (n : nat) : string := NilEmpty.string_of_uint (Nat.to_uint n).

(** The body of the loop over the paths: reseed the global generator with
    the path index, draw the shocks, build the path. *)
Definition simulate_path (drift std_dev : float) (last_port_val : Q)
  (num_days : nat) (acc : Dict.t (list float) * RandomState) (i : nat)
  : Dict.t (list float) * RandomState :=
  let g := seed i in
  let draws := standard_normal g num_days in
  let shocks := map (fun z => fadd (Some 0) (fmul std_dev (Some z))) (fst draws) in
  let dt := 1 / 252 in
  let daily_ret :=
    map (fun s =>
           match fadd (fmul drift (Some dt)) s with
           | Some x => Some (exp x)
           | None => NaN
           end) shocks in
  let port_path := map (fmul (Some last_port_val)) (fcumprod daily_ret) in
  (fst acc ++ [(("Simulation_" ++ str (i + 1)%nat)%string, port_path)],
   snd draws).

Definition last_date (s : Series) : option date :=
  match rev s with
  | [] => None
  | c :: _ => Some (fst c)
  end.

(** [Portfolio.monteCarloSimulation].  The state of numpy's global
    generator at the call and the wall-clock date are arguments; the
    generator after the call is returned with the table. *)
Definition monteCarloSimulation (num_simulations num_days : nat)
  (g0 : RandomState) (today : date) : M (DataFrame * RandomState) :=
  r <- getPortfolioReturns ;;
  let portfolio_returns := dropna r in
  if series_empty portfolio_returns then ret (empty_frame, g0)
  else
    self <- get_self ;;
    let mean_ret := mean (defined portfolio_returns) in
    let std_dev := std (defined portfolio_returns) in
    let drift :=
      fsub mean_ret (fmul (Some (1 # 2)) (fmul std_dev std_dev)) in
    let last_port_val := total_value (stocks self) in
    let sim :=
      fold_left (simulate_path drift std_dev last_port_val num_days)
                (seq 0 num_simulations) (Dict.empty, g0) in
    let start :=
      match last_date portfolio_returns with
      | None => today
      | Some d => d
      end in
    let future_dates := bdate_range (start + 1)%Z num_days in
    let sim_df := mkDataFrame future_dates (fst sim) in
    modify (with_simulated_portfolio_values sim_df) ;;
    match aggregate_metrics sim_df with
    | inl e => raise e
    | inr metrics =>
        modify (with_simulated_metrics metrics) ;;
        ret (sim_df, snd sim)
    end.

(** The table of simulated paths a call produced, or what it raised. *)
Definition path_table {G} (r : exn + DataFrame * G) : exn + DataFrame :=
  match r with
  | inl e => inl e
  | inr x => inr (fst x)
  end.

(** [Portfolio.getSimulatedMetrics] *)
Definition getSimulatedMetrics (self : Portfolio) : list MetricsRow :=
  match simulated_metrics self with
  | None => []
  | Some m => m
  end.

(** ** Dispersion and ratio metrics *)

(** [Portfolio.getPortfolioStdDev] *)
Definition getPortfolioStdDev : M float :=
  r <- getPortfolioReturns ;;
  let rr := dropna r in
  if series_empty rr then ret NaN
  else ret (fmul (std (defined rr)) (Some (sqrt 252))).

(** [Portfolio.getPortfolioSharpe]: [np.isnan(std_dev)] is the case
    [None]. *)
Definition getPortfolioSharpe : M float :=
  r <- getPortfolioExcessReturns ;;
  let er := defined (dropna r) in
  match std er with
  | None => ret NaN
  | Some std_dev =>
      if Qeqb std_dev 0 then ret NaN
      else ret (fmul (lift2 Qdiv (mean er) (Some std_dev)) (Some (sqrt 252)))
  end.

(** [Portfolio.getPortfolioSortino]: an undefined deviation of the
    negative part passes the test [negative.std() == 0] and makes the
    quotient undefined. *)
Definition getPortfolioSortino : M float :=
  r <- getPortfolioExcessReturns ;;
  let er := defined (dropna r) in
  let negative := filter (fun x => Qltb x 0) er in
  match negative with
  | [] => ret NaN
  | _ :: _ =>
      match std negative with
      | None => ret NaN
      | Some s =>
          if Qeqb s 0 then ret NaN
          else ret (fmul (lift2 Qdiv (mean er) (Some s)) (Some (sqrt 252)))
      end
  end.

(** ** Availability check and leave-one-out analysis *)

(** The last cell of a series ([c.iloc[-1]]). *)
Definition last_cell (s : Series) : float :=
  match rev s with
  | [] => NaN
  | c :: _ => snd c
  end.

(** [Portfolio.has_stock]: a comparison with an undefined price is
    false. *)
Definition has_stock (symbol : string) (quantity : Q) (self : Portfolio)
  : bool :=
  match Dict.get symbol (stocks self) with
  | None => false
  | Some st =>
      let c := getClose st in
      let last_price := if negb (series_empty c) then last_cell c else Some 0 in
      match last_price with
      | Some px => Qleb (quantity * px) (getAmount st)
      | None => false
      end
  end.

(** [Portfolio.simulatePortfolioWithoutAsset]: the transient portfolio is
    built by [__init__] and has caches of its own. *)
Definition simulatePortfolioWithoutAsset (symbol : string) : M float :=
  self <- get_self ;;
  if negb (Dict.mem symbol (weights self)) then ret NaN
  else
    let new_stocks :=
      filter (fun it : string * Stock => negb (String.eqb (fst it) symbol))
             (stocks self) in
    match new_stocks with
    | [] => ret NaN
    | _ :: _ =>
        match init new_stocks (RF self) (cash_balance self) with
        | inl e => raise e
        | inr testp =>
            match outcome (getPortfolioStdDev testp) with
            | inl e => raise e
            | inr v => ret v
            end
        end
    end.

(** [Portfolio.getAssetImpactOnVolatility] *)
Definition getAssetImpactOnVolatility (symbol : string) : M float :=
  orig <- getPortfolioStdDev ;;
  new_ <- simulatePortfolioWithoutAsset symbol ;;
  match new_ with
  | None => ret NaN
  | Some _ => ret (fsub orig new_)
  end.

End Methods.

(** A stand-in for the outside world, to run the model on concrete
    portfolios: no instrument data for new symbols, identity in place of
    the transcendental functions, a generator that is a counter and draws
    the next counts, a ledger and a table sorted by insertion on the
    date. *)
Definition plain_externals : Externals := {|
  listing := fun _ => (0, [], []);
  sqrt := fun x => x;
  exp := fun x => x;
  power := fun x _ => x;
  RandomState := nat;
  seed := fun i => i;
  standard_normal :=
    fun g n => (map (fun k => of_nat (g + k)) (seq 0 n), (g + n)%nat);
  sort_values :=
    isort (fun a b : Transaction => Z.leb (tx_Date a) (tx_Date b));
  sort_rows :=
    isort (fun a b : Row =>
             match Dict.get "Date" a, Dict.get "Date" b with
             | Some (Timestamp x), Some (Timestamp y) => Z.leb x y
             | _, _ => true
             end);
  aggregate_metrics := fun _ => inr []
|}.

(** A holding without instrument data. *)
Definition holding (sym : string) (invested val : Q) : Stock :=
  mkStock sym invested val 0 0 [] [].

(** A holding with a one-day adjusted-return series. *)
Definition holding_with_return (sym : string) (val ret1 : Q) : Stock :=
  mkStock sym val val 0 0 [] [(1%Z, Some ret1)].

(** A portfolio as [__init__] leaves it, given its weights. *)
Definition portfolio_of (d : Dict.t Stock) (w : Dict.t Q) : Portfolio :=
  mkPortfolio d 0 1000 w None None None None None.

(** One holding A worth 100, fully invested. *)
Definition one_holding : Portfolio :=
  portfolio_of [("A", holding "A" 100 100)] [("A", 1)].

(** No holding at all. *)
Definition no_holding : Portfolio := portfolio_of [] [].

(** Two holdings of equal value whose returns on day 1 are 10% and 30%. *)
Definition two_holdings : Portfolio :=
  portfolio_of
    [("A", holding_with_return "A" 100 (1 # 10));
     ("B", holding_with_return "B" 100 (3 # 10))]
    [("A", 1 # 2); ("B", 1 # 2)].

(** One holding worth 200 that gained 10% on day 1 and lost 50% on day 2. *)
Definition up_then_down : Portfolio :=
  portfolio_of
    [("A", mkStock "A" 200 200 0 0 []
             [(1%Z, Some (1 # 10)); (2%Z, Some (- (1 # 2)))])]
    [("A", 1)].

(** Other holdings, worth 200 together, with the same return series
    already in the cache. *)
Definition prefilled : Portfolio :=
  with_portfolio_returns
    (Some [(1%Z, Some (1 # 10)); (2%Z, Some (- (1 # 2)))])
    (portfolio_of [("C", holding "C" 150 150); ("D", holding "D" 50 50)]
                  [("C", 3 # 4); ("D", 1 # 4)]).


(** Holding A has an adjusted-return series, holding B has none. *)
Definition one_without_returns : Portfolio :=
  portfolio_of
    [("A", holding_with_return "A" 100 (1 # 10)); ("B", holding "B" 100 100)]
    [("A", 1 # 2); ("B", 1 # 2)].

(** Holding A is worth 100, holding B is worth nothing. *)
Definition with_zero_holding : Portfolio :=
  portfolio_of
    [("A", holding "A" 100 100); ("B", holding "B" 0 0)]
    [("A", 1); ("B", 0)].

(** One holding of 3 shares quoted 10 on day 1 and 11 on day 2. *)
Definition quoted : Portfolio :=
  portfolio_of
    [("A", mkStock "A" 30 30 0 3 [(1%Z, Some 10); (2%Z, Some 11)] [])]
    [("A", 1)].

(** ** The weight ledger and the tail metrics in binary64

    The lines of [getWeights], [update_stock], [getVaR] and [getCVaR] once
    more, with a Python [float] as the IEEE 754 binary64 number it is.
    The layout follows the definitions above; a portfolio is reduced to
    what these lines read and write. *)

Module Binary64.
Import PrimFloat.
Local Open Scope float_scope.
#[local] Set Warnings "-inexact-float".

Definition f64 := PrimFloat.float.

(** Of a holding, the fields [update_stock] and [getWeights] read and
    write. *)
Record Stock := mkStock {
  symbol : string;
  investment : f64;
  value : f64
}.

Definition getAmount (st : Stock) : f64 := value st.

Definition set_value (x : f64) (st : Stock) : Stock :=
  mkStock (symbol st) (investment st) x.

Definition set_investment (x : f64) (st : Stock) : Stock :=
  mkStock (symbol st) x (value st).

Record Portfolio := mkPortfolio {
  stocks : Dict.t Stock;
  weights : Dict.t f64
}.

(** [sum(xs)]: a left fold starting from 0. *)
Definition sum (xs : list f64) : f64 := fold_left PrimFloat.add xs 0.

Definition total_value (d : Dict.t Stock) : f64 :=
  sum (map getAmount (Dict.values d)).

(** [Portfolio.getWeights] *)
Definition getWeights (self : Portfolio) : exn + Dict.t f64 :=
  let total := total_value (stocks self) in
  if total =? 0 then inl (ValueError "Total portfolio value is zero.")
  else
    inr (fold_left
           (fun w (it : string * Stock) =>
              Dict.set (fst it) (getAmount (snd it) / total) w)
           (stocks self) Dict.empty).

(** The closing block of [update_stock] ("recalculate weights"). *)
Definition recalculate_weights (self : Portfolio)
  : Portfolio * (exn + unit) :=
  if (0 <? List.length (stocks self))%nat then
    match getWeights self with
    | inl e => (self, inl e)
    | inr w => (mkPortfolio (stocks self) w, inr tt)
    end
  else (mkPortfolio (stocks self) Dict.empty, inr tt).

(** [Portfolio.update_stock]: the receiver after the call, and what the
    call raised or returned. *)
Definition update_stock (symbol : string) (quantity price : f64)
  (increase : bool) (self : Portfolio) : Portfolio * (exn + unit) :=
  if negb (Dict.mem symbol (stocks self)) && negb increase then
    (self,
     inl (ValueError
            ("Unable to sell " ++ symbol ++ " that is not in the portfolio.")))
  else
    let self :=
      if negb (Dict.mem symbol (stocks self)) then
        mkPortfolio (Dict.set symbol (mkStock symbol 0 0) (stocks self))
                    (weights self)
      else self in
    match Dict.get symbol (stocks self) with
    | None => (self, inl (KeyError symbol))
    | Some stock =>
        let current_value := getAmount stock in
        if increase then
          (* buy *)
          let stock1 := set_value (current_value + quantity * price) stock in
          let stock2 :=
            set_investment (investment stock1 + quantity * price) stock1 in
          recalculate_weights
            (mkPortfolio (Dict.set symbol stock2 (stocks self)) (weights self))
        else
          (* sell *)
          if value stock <? quantity * price then
            (self,
             inl (ValueError ("Insufficient value in " ++ symbol ++ " to sell.")))
          else
            let stock1 := set_value (current_value - quantity * price) stock in
            let stocks1 := Dict.set symbol stock1 (stocks self) in
            recalculate_weights
              (mkPortfolio
                 (if value stock1 =? 0 then Dict.del symbol stocks1
                  else stocks1)
                 (weights self))
    end.

(** [s.dropna()], on the values of a series *)
Definition dropna (s : list f64) : list f64 :=
  filter (fun x => negb (is_nan x)) s.

Definition of_nat (n : nat) : f64 := of_uint63 (Uint63.of_Z (Z.of_nat n)).

(** The floor of a virtual index that lies between 0 and [k]. *)
Fixpoint floor_upto (k : nat) (pos : f64) : nat :=
  match k with
  | O => O
  | S k' => if of_nat k <=? pos then k else floor_upto k' pos
  end.

(** numpy's interpolation between two neighbouring order statistics: from
    the lower one for a fraction below one half, from the upper one
    otherwise. *)
Definition lerp (a b t : f64) : f64 :=
  if 0.5 <=? t then b - (b - a) * (1 - t) else a + (b - a) * t.

(** [np.percentile(xs, q)] with the default linear interpolation. *)
Definition percentile (xs : list f64) (q : f64) : exn + f64 :=
  let quantile := q / 100 in
  if negb ((0 <=? quantile) && (quantile <=? 1)) then
    inl (ValueError "Percentiles must be in the range [0, 100]")
  else
    match xs with
    | [] => inr nan
    | _ :: _ =>
        let sorted := isort PrimFloat.leb xs in
        let n := List.length xs in
        let virtual_index := of_nat (n - 1) * quantile in
        let lo := floor_upto (n - 1) virtual_index in
        let hi := Nat.min (S lo) (n - 1) in
        let gamma := virtual_index - of_nat lo in
        inr (lerp (nth lo sorted nan) (nth hi sorted nan) gamma)
    end.

(** [s.mean()]: the sum over the count. *)
Definition mean (xs : list f64) : f64 :=
  match xs with
  | [] => nan
  | _ :: _ => sum xs / of_nat (List.length xs)
  end.

(** [Portfolio.getVaR], on the values of the series that
    [getPortfolioReturns] hands out *)
Definition getVaR (portfolio_returns : list f64) (cl : f64) : exn + f64 :=
  let pr := dropna portfolio_returns in
  match pr with
  | [] => inr nan
  | _ :: _ => percentile pr (cl * 100)
  end.

(** [Portfolio.getCVaR] *)
Definition getCVaR (portfolio_returns : list f64) (cl : f64) : exn + f64 :=
  let pr := dropna portfolio_returns in
  match pr with
  | [] => inr nan
  | _ :: _ =>
      match getVaR portfolio_returns cl with
      | inl e => inl e
      | inr var_ => inr (mean (filter (fun x => x <=? var_) pr))
      end
  end.

(** One holding with the given amount, fully invested. *)
Definition one_holding (sym : string) (amount : f64) : Portfolio :=
  mkPortfolio [(sym, mkStock sym amount amount)] [(sym, 1)].

End Binary64.

(** * Properties *)

(** ** Comparisons and sums *)

Lemma Qltb_lt a b : Qltb a b = true <-> a < b.
Proof.
  unfold Qltb. rewrite negb_true_iff.
  split; intro H.
  - apply Qnot_le_lt. intro Hle. apply Qle_bool_iff in Hle. congruence.
  - destruct (Qle_bool b a) eqn:Hb; [|reflexivity].
    apply Qle_bool_iff in Hb. lra.
Qed.

Lemma Qltb_ge a b : Qltb a b = false <-> b <= a.
Proof.
  unfold Qltb. rewrite negb_false_iff. apply Qle_bool_iff.
Qed.

Lemma Qeqb_eq a b : Qeqb a b = true <-> a == b.
Proof. apply Qeq_bool_iff. Qed.

Lemma Qeqb_neq a b : Qeqb a b = false <-> ~ a == b.
Proof.
  unfold Qeqb. split; intro H.
  - intro Heq. apply Qeq_bool_iff in Heq. congruence.
  - destruct (Qeq_bool a b) eqn:Hb; [|reflexivity].
    apply Qeq_bool_iff in Hb. contradiction.
Qed.

Lemma fold_left_Qplus_acc (l : list Q) (a : Q) :
  fold_left Qplus l a == a + Qsum l.
Proof.
  unfold Qsum. revert a.
  induction l as [|x l IH]; intro a; simpl.
  - lra.
  - rewrite (IH (a + x)), (IH (0 + x)). lra.
Qed.

Lemma Qsum_cons x l : Qsum (x :: l) == x + Qsum l.
Proof.
  unfold Qsum at 1. simpl. rewrite fold_left_Qplus_acc. lra.
Qed.

Lemma Qsum_snoc l x : Qsum (l ++ [x]) = Qsum l + x.
Proof. unfold Qsum. now rewrite fold_left_app. Qed.

(** ** Dictionaries *)

Module DictFacts.
Section DictFacts.
Context {V : Type}.
Implicit Types (d : Dict.t V) (k : string) (v : V).

Lemma get_set_same k v d : Dict.get k (Dict.set k v d) = Some v.
Proof.
  induction d as [|[k' v'] d IH]; simpl.
  - now rewrite String.eqb_refl.
  - destruct (String.eqb k k') eqn:Hk; simpl.
    + now rewrite String.eqb_refl.
    + now rewrite Hk.
Qed.

Lemma set_set k v v' d : Dict.set k v' (Dict.set k v d) = Dict.set k v' d.
Proof.
  induction d as [|[k1 v1] d IH]; simpl.
  - now rewrite String.eqb_refl.
  - destruct (String.eqb k k1) eqn:Hk; simpl.
    + now rewrite String.eqb_refl.
    + now rewrite Hk, IH.
Qed.

Lemma get_set_other k k' v d :
  k <> k' -> Dict.get k' (Dict.set k v d) = Dict.get k' d.
Proof.
  intro Hne. induction d as [|[k1 v1] d IH]; simpl.
  - destruct (String.eqb k' k) eqn:Hk; [|reflexivity].
    apply String.eqb_eq in Hk. congruence.
  - destruct (String.eqb k k1) eqn:Hk; simpl.
    + apply String.eqb_eq in Hk. subst k1.
      destruct (String.eqb k' k) eqn:Hk'; [|reflexivity].
      apply String.eqb_eq in Hk'. congruence.
    + now rewrite IH.
Qed.

(** A key that is not in the dictionary is appended. *)
Lemma set_fresh k v d :
  Dict.get k d = None -> Dict.set k v d = d ++ [(k, v)].
Proof.
  induction d as [|[k' v'] d IH]; simpl; [reflexivity|].
  destruct (String.eqb k k'); [discriminate|].
  intro H. now rewrite IH.
Qed.

Lemma get_None_not_in k d : Dict.get k d = None <-> ~ In k (Dict.keys d).
Proof.
  induction d as [|[k' v'] d IH]; simpl.
  - tauto.
  - destruct (String.eqb k k') eqn:Hk.
    + apply String.eqb_eq in Hk. subst. split; [discriminate|tauto].
    + apply String.eqb_neq in Hk. rewrite IH. split.
      * intros H [H1|H1]; [congruence|tauto].
      * tauto.
Qed.





Lemma get_In k v d : Dict.get k d = Some v -> In (k, v) d.
Proof.
  induction d as [|[k' v'] d IH]; simpl; [discriminate|].
  destruct (String.eqb k k') eqn:Hk.
  - apply String.eqb_eq in Hk. intro H. inversion H. subst. now left.
  - auto.
Qed.
End DictFacts.
End DictFacts.

Lemma del_set_same {V} k (v : V) d : Dict.del k (Dict.set k v d) = Dict.del k d.
Proof.
  induction d as [|[k' v'] d IH]; simpl.
  - now rewrite String.eqb_refl.
  - destruct (String.eqb k k') eqn:Hk; simpl.
    + now rewrite String.eqb_refl.
    + now rewrite Hk, IH.
Qed.

Lemma get_del_other {V} k k' (d : Dict.t V) :
  k <> k' -> Dict.get k' (Dict.del k d) = Dict.get k' d.
Proof.
  intro Hne. induction d as [|[k1 v1] d IH]; simpl; [reflexivity|].
  destruct (String.eqb k k1) eqn:Hk; simpl.
  - apply String.eqb_eq in Hk. subst k1.
    destruct (String.eqb k' k) eqn:Hk'; [|reflexivity].
    apply String.eqb_eq in Hk'. congruence.
  - now rewrite IH.
Qed.

Lemma get_del_same {V} k (d : Dict.t V) :
  Dict.wf d -> Dict.get k (Dict.del k d) = None.
Proof.
  unfold Dict.wf. induction d as [|[k1 v1] d IH]; simpl; intro Hwf;
    [reflexivity|].
  inversion Hwf as [|? ? Hnin Hnd]; subst.
  destruct (String.eqb k k1) eqn:Hk; simpl.
  - apply String.eqb_eq in Hk. subst k1.
    now apply DictFacts.get_None_not_in.
  - rewrite Hk. now apply IH.
Qed.

Section UpdateStock.
Context {E : Externals}.

Lemma getWeights_state self : state_after (getWeights self) = self.
Proof.
  unfold getWeights, bind, get_self, raise, ret, state_after. simpl.
  now destruct (Qeqb _ _).
Qed.

Lemma recalculate_weights_frame self :
  let self' := state_after (recalculate_weights self) in
  stocks self' = stocks self /\ RF self' = RF self
  /\ cash_balance self' = cash_balance self
  /\ portfolio_returns self' = portfolio_returns self
  /\ portfolio_excess_returns self' = portfolio_excess_returns self.
Proof.
  unfold recalculate_weights, getWeights, bind, get_self, modify, raise, ret,
    state_after. simpl.
  destruct (0 <? _)%nat; simpl; [|tauto].
  destruct (Qeqb _ _); simpl; tauto.
Qed.

Lemma recalculate_weights_zero_total self :
  stocks self <> [] ->
  total_value (stocks self) == 0 ->
  recalculate_weights self
  = (self, inl (ValueError "Total portfolio value is zero.")).
Proof.
  intros Hne Hz.
  assert (Hlen : (0 <? List.length (stocks self))%nat = true)
    by (destruct (stocks self); [congruence|reflexivity]).
  unfold recalculate_weights, getWeights, bind, get_self, modify, raise, ret.
  rewrite Hlen. apply Qeqb_eq in Hz. now rewrite Hz.
Qed.

Lemma recalculate_weights_empty self :
  stocks self = [] ->
  recalculate_weights self = (with_weights Dict.empty self, inr tt).
Proof.
  intros Hs.
  unfold recalculate_weights, getWeights, bind, get_self, modify, raise, ret.
  simpl. now rewrite Hs.
Qed.

Lemma recalculate_weights_ok self :
  stocks self <> [] ->
  ~ total_value (stocks self) == 0 ->
  recalculate_weights self
  = (with_weights
       (fold_left
          (fun w (it : string * Stock) =>
             Dict.set (fst it)
                      (getAmount (snd it) / total_value (stocks self)) w)
          (stocks self) Dict.empty) self, inr tt).
Proof.
  intros Hne Hz.
  assert (Hlen : (0 <? List.length (stocks self))%nat = true)
    by (destruct (stocks self); [congruence|reflexivity]).
  unfold recalculate_weights, getWeights, bind, get_self, modify, raise, ret.
  rewrite Hlen. apply Qeqb_neq in Hz. now rewrite Hz.
Qed.

Lemma recalculate_weights_outcome self :
  outcome (recalculate_weights self) = inr tt
  \/ outcome (recalculate_weights self)
     = inl (ValueError "Total portfolio value is zero.").
Proof.
  unfold recalculate_weights, getWeights, bind, get_self, modify, raise, ret,
    outcome.
  destruct (0 <? _)%nat; [|now left].
  destruct (Qeqb _ _); [now right|now left].
Qed.

(** What a sell of a held symbol does, depending on the check. *)
Lemma update_stock_sell_held self sym q px st :
  Dict.get sym (stocks self) = Some st ->
  update_stock sym q px false self =
    if Qltb (value st) (q * px) then
      (self, inl (ValueError ("Insufficient value in " ++ sym ++ " to sell.")))
    else
      let st1 := set_value (getAmount st - q * px) st in
      let d1 := Dict.set sym st1 (stocks self) in
      recalculate_weights
        (with_stocks (if Qeqb (value st1) 0 then Dict.del sym d1 else d1) self).
Proof.
  intro Hg.
  unfold update_stock, bind, get_self, modify, raise, ret, Dict.mem. simpl.
  rewrite Hg. simpl. rewrite Hg.
  destruct (Qltb _ _); [reflexivity|]. simpl.
  destruct (Qeqb _ _); reflexivity.
Qed.

(** What a buy of a held symbol does. *)
Lemma update_stock_buy_held self sym q px st :
  Dict.get sym (stocks self) = Some st ->
  update_stock sym q px true self =
    let st1 := set_value (getAmount st + q * px) st in
    let st2 := set_investment (investment st1 + q * px) st1 in
    recalculate_weights (with_stocks (Dict.set sym st2 (stocks self)) self).
Proof.
  intro Hg.
  unfold update_stock, bind, get_self, modify, raise, ret, Dict.mem. simpl.
  rewrite Hg. simpl. rewrite Hg. reflexivity.
Qed.

(** What a buy of a symbol that is not held does. *)
Lemma update_stock_buy_new self sym q px :
  Dict.get sym (stocks self) = None ->
  update_stock sym q px true self =
    let st0 := new_Stock sym 0 0 (RF self) in
    let st1 := set_value (getAmount st0 + q * px) st0 in
    let st2 := set_investment (investment st1 + q * px) st1 in
    recalculate_weights
      (with_stocks (stocks self ++ [(sym, st2)]) self).
Proof.
  intro Hg.
  unfold update_stock, bind, get_self, modify, raise, ret, Dict.mem. simpl.
  rewrite Hg. simpl. rewrite DictFacts.get_set_same. simpl.
  rewrite DictFacts.set_set.
  now rewrite (DictFacts.set_fresh sym _ (stocks self) Hg).
Qed.

Lemma update_stock_sell_absent self sym q px :
  Dict.get sym (stocks self) = None ->
  update_stock sym q px false self =
    (self,
     inl (ValueError ("Unable to sell " ++ sym ++ " that is not in the portfolio."))).
Proof.
  intro Hg.
  unfold update_stock, bind, get_self, modify, raise, ret, Dict.mem. simpl.
  now rewrite Hg.
Qed.

(** [update_stock] writes the holdings and the weights and nothing else. *)
Lemma update_stock_frame self sym q px inc :
  let self' := state_after (update_stock sym q px inc self) in
  RF self' = RF self
  /\ cash_balance self' = cash_balance self
  /\ portfolio_returns self' = portfolio_returns self
  /\ portfolio_excess_returns self' = portfolio_excess_returns self.
Proof.
  destruct (Dict.get sym (stocks self)) as [st|] eqn:Hg; destruct inc.
  - rewrite (update_stock_buy_held _ _ _ _ _ Hg). cbv zeta.
    match goal with |- context [recalculate_weights ?p] =>
      destruct (recalculate_weights_frame p) as (_ & -> & -> & -> & ->) end.
    simpl. tauto.
  - rewrite (update_stock_sell_held _ _ _ _ _ Hg).
    destruct (Qltb _ _); [simpl; tauto|]. cbv zeta.
    match goal with |- context [recalculate_weights ?p] =>
      destruct (recalculate_weights_frame p) as (_ & -> & -> & -> & ->) end.
    simpl. tauto.
  - rewrite (update_stock_buy_new _ _ _ _ Hg). cbv zeta.
    match goal with |- context [recalculate_weights ?p] =>
      destruct (recalculate_weights_frame p) as (_ & -> & -> & -> & ->) end.
    simpl. tauto.
  - rewrite (update_stock_sell_absent _ _ _ _ Hg). simpl. tauto.
Qed.

(** C8. Whatever the call (buy or sell, returning or raising),
    [update_stock] leaves the cash balance of the portfolio as it was. *)
Theorem update_stock_keeps_cash_balance self sym q px inc :
  cash_balance (state_after (update_stock sym q px inc self))
  = cash_balance self.
Proof. apply (update_stock_frame self sym q px inc). Qed.

(** C3. Selling a held symbol for more than its current amount raises the
    "Insufficient value" error and leaves the whole portfolio, hence the
    holding's amount and investment, the holdings and the weights, as they
    were; and a sell of a held symbol raises that error only then. *)
Theorem oversell_raises_and_keeps_state self sym q px st :
  Dict.get sym (stocks self) = Some st ->
  let r := update_stock sym q px false self in
  let insufficient :=
    ValueError ("Insufficient value in " ++ sym ++ " to sell.") in
  (getAmount st < q * px ->
     outcome r = inl insufficient
     /\ state_after r = self
     /\ Dict.get sym (stocks (state_after r)) = Some st
     /\ stocks (state_after r) = stocks self
     /\ weights (state_after r) = weights self)
  /\ (outcome r = inl insufficient -> getAmount st < q * px).
Proof.
  intros Hg r insufficient. subst r insufficient.
  rewrite (update_stock_sell_held _ _ _ _ _ Hg).
  unfold getAmount.
  destruct (Qltb (value st) (q * px)) eqn:Hlt.
  - apply Qltb_lt in Hlt. simpl. repeat split; auto.
  - apply Qltb_ge in Hlt. split; [intro; lra|].
    cbv zeta. intro Hout. exfalso. revert Hout.
    match goal with |- context [recalculate_weights ?p] =>
      destruct (recalculate_weights_outcome p) as [-> | ->] end;
      discriminate.
Qed.

(** C10. Buying a symbol that is not held, for a quantity times price of
    zero, while the holdings are worth zero in total: [update_stock] first
    appends the new holding, worth zero, and then raises from the weight
    recomputation; the portfolio is left changed by the failed call. *)
Theorem zero_buy_at_zero_total_mutates_then_raises self sym q px :
  Dict.get sym (stocks self) = None ->
  q * px == 0 ->
  total_value (stocks self) == 0 ->
  let r := update_stock sym q px true self in
  outcome r = inl (ValueError "Total portfolio value is zero.")
  /\ (exists st, stocks (state_after r) = stocks self ++ [(sym, st)]
                 /\ symbol st = sym /\ getAmount st == 0)
  /\ weights (state_after r) = weights self
  /\ state_after r <> self.
Proof.
  intros Hg Hz Htot r. subst r.
  rewrite (update_stock_buy_new _ _ _ _ Hg). cbv zeta.
  unfold new_Stock. destruct (listing sym) as [[qy c] ar].
  rewrite recalculate_weights_zero_total.
  - unfold outcome, state_after. cbn [fst snd].
    split; [reflexivity|]. split.
    + eexists. split; [reflexivity|]. split; [reflexivity|].
      cbn. rewrite Hz. lra.
    + split; [reflexivity|].
      intro Heq. apply (f_equal stocks) in Heq. cbn in Heq.
      apply (f_equal (@List.length _)) in Heq. rewrite length_app in Heq.
      cbn in Heq. lia.
  - cbn. destruct (stocks self); discriminate.
  - cbn [stocks with_stocks]. unfold total_value, Dict.values in *.
    rewrite !map_app. cbn [map]. rewrite Qsum_snoc.
    cbn. rewrite Htot, Hz. lra.
Qed.

Lemma total_value_cons (it : string * Stock) d :
  total_value (it :: d) == getAmount (snd it) + total_value d.
Proof. unfold total_value, Dict.values. cbn [map]. apply Qsum_cons. Qed.

Lemma set_nonempty {V} k (v : V) d : Dict.set k v d <> [].
Proof. destruct d as [|[k' v'] d]; simpl; [|destruct (String.eqb k k')]; discriminate. Qed.

(** C2, as the code has it. A buy followed by the sell of the same
    quantity at the same price, on a held symbol whose amount is not
    negative, never fails the sell's sufficiency check.  Afterwards the
    amount is the difference the code computes, (amount + quantity times
    price) - quantity times price, and the investment is the one of
    before plus quantity times price: a sell never writes the
    investment.  When the computed difference is zero the sell has
    removed the holding. *)
Theorem buy_then_sell_leaves_investment_raised self sym q px st :
  Dict.wf (stocks self) ->
  Dict.get sym (stocks self) = Some st ->
  0 <= getAmount st ->
  let bought := update_stock sym q px true self in
  let sold := update_stock sym q px false (state_after bought) in
  let left := getAmount st + q * px - q * px in
  outcome sold
    <> inl (ValueError ("Insufficient value in " ++ sym ++ " to sell."))
  /\ (Qeqb left 0 = false ->
      exists st',
        Dict.get sym (stocks (state_after sold)) = Some st'
        /\ getAmount st' = left
        /\ investment st' = investment st + q * px)
  /\ (Qeqb left 0 = true ->
      Dict.get sym (stocks (state_after sold)) = None).
Proof.
  intros Hwf Hg Hpos bought sold left. subst bought sold left.
  rewrite (update_stock_buy_held _ _ _ _ _ Hg). cbv zeta.
  set (st2 := set_investment _ _).
  set (p1 := with_stocks _ self).
  assert (Hs1 : stocks (state_after (recalculate_weights p1))
                = Dict.set sym st2 (stocks self))
    by apply (recalculate_weights_frame p1).
  assert (Hg1 : Dict.get sym (stocks (state_after (recalculate_weights p1)))
                = Some st2)
    by (rewrite Hs1; apply DictFacts.get_set_same).
  assert (Hv2 : value st2 = value st + q * px) by reflexivity.
  unfold getAmount in *.
  rewrite (update_stock_sell_held _ _ _ _ _ Hg1).
  assert (Hchk : Qltb (value st2) (q * px) = false)
    by (apply Qltb_ge; rewrite Hv2; lra).
  rewrite Hchk. cbv zeta.
  set (st3 := set_value _ st2).
  assert (Hv3 : value st3 = value st + q * px - q * px) by reflexivity.
  rewrite Hs1, DictFacts.set_set, Hv3.
  split; [|split].
  - match goal with |- context [recalculate_weights ?p] =>
      destruct (recalculate_weights_outcome p) as [-> | ->] end; discriminate.
  - intros Hnz. rewrite Hnz.
    match goal with |- context [recalculate_weights ?p] =>
      destruct (recalculate_weights_frame p) as (Hs2 & _) end.
    cbv zeta in Hs2. rewrite Hs2. cbn [stocks with_stocks].
    exists st3. rewrite DictFacts.get_set_same.
    split; [reflexivity|]. split; reflexivity.
  - intros Hz. rewrite Hz.
    match goal with |- context [recalculate_weights ?p] =>
      destruct (recalculate_weights_frame p) as (Hs2 & _) end.
    cbv zeta in Hs2. rewrite Hs2. cbn [stocks with_stocks].
    rewrite del_set_same. now apply get_del_same.
Qed.

(** ** Caches of the return engine *)

Lemma getPortfolioReturns_cached self cached :
  portfolio_returns self = Some cached ->
  getPortfolioReturns self = (self, inr cached).
Proof.
  intro H. unfold getPortfolioReturns, bind, get_self, ret. simpl.
  now rewrite H.
Qed.

Lemma getPortfolioExcessReturns_cached self cached :
  portfolio_excess_returns self = Some cached ->
  getPortfolioExcessReturns self = (self, inr cached).
Proof.
  intro H. unfold getPortfolioExcessReturns, bind, get_self, ret. simpl.
  now rewrite H.
Qed.

Lemma getAdjustedReturns_state self :
  state_after (getAdjustedReturns self) = self.
Proof.
  unfold getAdjustedReturns, bind, get_self, raise, ret, state_after. simpl.
  destruct (frame_empty _); [reflexivity|].
  now destruct (dot _ _).
Qed.

(** With an empty cache the portfolio returns are the weighted adjusted
    returns of the holdings and weights of the receiver. *)
Lemma getPortfolioReturns_fresh self :
  portfolio_returns self = None ->
  outcome (getPortfolioReturns self) = outcome (getAdjustedReturns self).
Proof.
  intro H. unfold getPortfolioReturns, bind, get_self, modify, ret, outcome.
  simpl. rewrite H.
  destruct (getAdjustedReturns self) as [p [e|r]]; [reflexivity|].
  destruct r; reflexivity.
Qed.

(** C1, as the code has it. [update_stock] does not touch the two caches:
    a return series or excess-return series cached before the mutation is
    what [getPortfolioReturns] and [getPortfolioExcessReturns] hand out
    after it; only when nothing was cached are the portfolio returns
    computed from the holdings and weights the mutation left. *)
Theorem update_stock_keeps_caches self sym q px inc :
  let self' := state_after (update_stock sym q px inc self) in
  portfolio_returns self' = portfolio_returns self
  /\ portfolio_excess_returns self' = portfolio_excess_returns self
  /\ (forall cached, portfolio_returns self = Some cached ->
        getPortfolioReturns self' = (self', inr cached))
  /\ (forall cached, portfolio_excess_returns self = Some cached ->
        getPortfolioExcessReturns self' = (self', inr cached))
  /\ (portfolio_returns self = None ->
        outcome (getPortfolioReturns self')
        = outcome (getAdjustedReturns self')).
Proof.
  intro self'.
  destruct (update_stock_frame self sym q px inc) as (_ & _ & Hr & He).
  fold self' in Hr, He.
  repeat split; try assumption.
  - intros cached Hc. apply getPortfolioReturns_cached. congruence.
  - intros cached Hc. apply getPortfolioExcessReturns_cached. congruence.
  - intro Hn. apply getPortfolioReturns_fresh. congruence.
Qed.

(** ** Weights after a mutation *)

(** Over pairwise distinct keys the loop of [getWeights] lists the
    holdings in their order, each with its fraction. *)
Lemma fold_set_distinct {A B} (f : A -> B) (d : Dict.t A) (acc : Dict.t B) :
  NoDup (Dict.keys acc ++ Dict.keys d) ->
  fold_left (fun w (it : string * A) => Dict.set (fst it) (f (snd it)) w) d acc
  = acc ++ map (fun it => (fst it, f (snd it))) d.
Proof.
  revert acc. induction d as [|[k v] d IH]; intros acc Hnd; simpl.
  - now rewrite app_nil_r.
  - assert (Hfresh : Dict.get k acc = None).
    { apply DictFacts.get_None_not_in. intro Hin.
      apply NoDup_remove_2 in Hnd. apply Hnd, in_or_app. now left. }
    rewrite (DictFacts.set_fresh _ _ _ Hfresh), IH.
    + now rewrite <- app_assoc.
    + unfold Dict.keys in *. rewrite map_app, <- app_assoc. exact Hnd.
Qed.

Lemma get_map_values {A B} (f : A -> B) k (d : Dict.t A) :
  Dict.get k (map (fun it => (fst it, f (snd it))) d)
  = option_map f (Dict.get k d).
Proof.
  induction d as [|[k' v] d IH]; simpl; [reflexivity|].
  now destruct (String.eqb k k').
Qed.



End UpdateStock.

(** ** Sorting and order statistics *)







(** ** Series without undefined entries *)

Lemma defined_dropna s : defined (dropna s) = defined s.
Proof.
  induction s as [|[d [x|]] s IH]; simpl; congruence.
Qed.

Lemma dropna_empty s : series_empty (dropna s) = true <-> defined s = [].
Proof.
  induction s as [|[d [x|]] s IH]; simpl.
  - tauto.
  - split; discriminate.
  - exact IH.
Qed.

(** A call of [getPortfolioReturns] that returns a series leaves that
    series in the cache, so the next call returns it again. *)
Lemma getPortfolioReturns_twice self self' r :
  getPortfolioReturns self = (self', inr r) ->
  getPortfolioReturns self' = (self', inr r).
Proof.
  unfold getPortfolioReturns at 1. unfold bind, get_self, modify, ret.
  destruct (portfolio_returns self) as [c|] eqn:Hc.
  - intro H. inversion H; subst. now apply getPortfolioReturns_cached.
  - destruct (getAdjustedReturns self) as [p [e|s]] eqn:Hadj; [discriminate|].
    destruct (series_empty s) eqn:Hs; intro H; inversion H; subst;
      now apply getPortfolioReturns_cached.
Qed.

(** ** C6: CVaR against VaR *)


(** ** C7: maximum drawdown *)

Lemma Qmax_cases a b : (Qmax a b = a /\ b <= a) \/ (Qmax a b = b /\ a <= b).
Proof.
  unfold Qmax. destruct (Qle_bool a b) eqn:H.
  - right. split; [reflexivity|]. now apply Qle_bool_iff.
  - left. split; [reflexivity|].
    destruct (Qlt_le_dec a b) as [Hlt|Hle]; [|assumption].
    apply Qlt_le_weak, Qle_bool_iff in Hlt. congruence.
Qed.


Lemma expanding_max_from_length m l :
  List.length (expanding_max_from m l) = List.length l.
Proof. revert m. induction l; intro m; simpl; auto. Qed.

Lemma expanding_max_length l : List.length (expanding_max l) = List.length l.
Proof. destruct l; simpl; [|rewrite expanding_max_from_length]; reflexivity. Qed.





(** A running maximum of zero sits over a cumulative product of zero, so
    the quotient in [drawdown] is never a non-zero value over zero. *)
Lemma peak_zero_cum_zero_from xs : forall acc m,
  (m == 0 -> acc == 0) ->
  Forall2 (fun c p => p == 0 -> c == 0)
          (cumprod_from acc xs) (expanding_max_from m (cumprod_from acc xs)).
Proof.
  induction xs as [|x xs IH]; intros acc m Hinv; simpl; constructor.
  - destruct (Qmax_cases m (acc * x)) as [[-> _]|[-> _]]; intro Hz.
    + rewrite (Hinv Hz). ring.
    + exact Hz.
  - apply IH.
    destruct (Qmax_cases m (acc * x)) as [[-> _]|[-> _]]; intro Hz.
    + rewrite (Hinv Hz). ring.
    + exact Hz.
Qed.

Lemma peak_zero_cum_zero xs :
  Forall2 (fun c p => p == 0 -> c == 0)
          (cumprod xs) (expanding_max (cumprod xs)).
Proof.
  destruct xs as [|x xs]; simpl; constructor; [tauto|].
  apply peak_zero_cum_zero_from. tauto.
Qed.





(** When the first return is a total loss every quotient is [0 / 0]. *)
Lemma max_drawdown_of_total_loss x0 rest :
  x0 == - (1) -> max_drawdown_of (x0 :: rest) = NaN.
Proof.
  intro Hx. unfold max_drawdown_of. cbn [map cumprod expanding_max map2].
  assert (Hz : 1 + x0 == 0) by lra.
  unfold drawdown at 1. apply Qeqb_eq in Hz as Hb. rewrite Hb.
  cbn [nanmin].
  assert (Hall : forall xs acc m, acc == 0 -> m == 0 ->
            nanmin (map2 drawdown (cumprod_from acc xs)
                      (expanding_max_from m (cumprod_from acc xs))) = NaN).
  { induction xs as [|x xs IH]; intros acc m Ha Hm0; [reflexivity|].
    cbn [cumprod_from expanding_max_from map2].
    assert (Hc : acc * x == 0) by (rewrite Ha; ring).
    assert (Hp : Qmax m (acc * x) == 0)
      by (destruct (Qmax_cases m (acc * x)) as [[-> _]|[-> _]]; assumption).
    unfold drawdown at 1. apply Qeqb_eq in Hp as Hpb. rewrite Hpb.
    cbn [nanmin]. now apply IH. }
  now apply Hall.
Qed.


(** ** C9: replay of an empty ledger *)

Section Replay.
Context {E : Externals}.

(** C9. Given no transaction ledger, or an empty one, the replay engine
    returns the empty table, whatever the holdings and their price dates;
    it leaves the portfolio as it was. *)
Theorem replay_without_transactions_is_empty self by_stock :
  getDynamicTimeSeries None by_stock self = (self, inr [])
  /\ getDynamicTimeSeries (Some []) by_stock self = (self, inr []).
Proof. split; reflexivity. Qed.

End Replay.

(** The replay works on its own copies of the cash and of the quantities:
    the portfolio is as it was after the call. *)
Lemma getDynamicTimeSeries_state
  {E : Externals} transaction_log by_stock self :
  state_after (getDynamicTimeSeries transaction_log by_stock self) = self.
Proof.
  destruct transaction_log as [[|tx log]|]; try reflexivity.
  unfold getDynamicTimeSeries, bind, get_self, raise, ret, state_after.
  cbn [fst]. destruct (frame_empty _); [reflexivity|].
  now destruct (replay _ _ _ _ _).
Qed.

(** ** C5: determinism of the simulator *)

Section MonteCarlo.
Context {E : Externals}.

(** A path depends on the path index, not on the generator it finds. *)
Lemma simulate_path_reseeds drift std_dev v0 num_days cols g g' i :
  simulate_path drift std_dev v0 num_days (cols, g) i
  = simulate_path drift std_dev v0 num_days (cols, g') i.
Proof. reflexivity. Qed.

Lemma simulated_columns_ignore_generator drift std_dev v0 num_days l cols g g' :
  fst (fold_left (simulate_path drift std_dev v0 num_days) l (cols, g))
  = fst (fold_left (simulate_path drift std_dev v0 num_days) l (cols, g')).
Proof.
  destruct l as [|i l]; [reflexivity|]. cbn [fold_left].
  now rewrite (simulate_path_reseeds _ _ _ _ cols g g' i).
Qed.

Lemma last_date_nonempty s :
  series_empty s = false -> exists d, last_date s = Some d.
Proof.
  unfold last_date. intro Hs.
  destruct (rev s) as [|c r] eqn:Hr.
  - apply (f_equal (@rev _)) in Hr. rewrite rev_involutive in Hr.
    subst s. discriminate.
  - now exists (fst c).
Qed.

(** A call of [getPortfolioReturns] either raises and leaves the receiver
    alone, or returns a series and leaves it in the cache. *)
Lemma getPortfolioReturns_run self :
  (exists e, getPortfolioReturns self = (self, inl e))
  \/ (exists r,
        getPortfolioReturns self = (with_portfolio_returns (Some r) self, inr r)).
Proof.
  unfold getPortfolioReturns, bind, get_self, modify, ret.
  destruct (portfolio_returns self) as [c|] eqn:Hc.
  - right. exists c. f_equal. destruct self. simpl in *. now subst.
  - pose proof (getAdjustedReturns_state self) as Hst.
    destruct (getAdjustedReturns self) as [p [e|r]];
      unfold state_after in Hst; cbn [fst] in Hst; subst p.
    + left. now exists e.
    + right. destruct (series_empty r) eqn:He.
      * exists []. reflexivity.
      * exists r. reflexivity.
Qed.

(** With the returns already cached, the table of paths is a function of
    the cached series and of the total value of the holdings alone. *)
Lemma monteCarloSimulation_cached_agree n h p1 p2 r g1 g2 t1 t2 :
  portfolio_returns p1 = Some r ->
  portfolio_returns p2 = Some r ->
  total_value (stocks p1) = total_value (stocks p2) ->
  path_table (outcome (monteCarloSimulation n h g1 t1 p1))
  = path_table (outcome (monteCarloSimulation n h g2 t2 p2)).
Proof.
  intros H1 H2 Hs.
  unfold monteCarloSimulation, bind.
  rewrite (getPortfolioReturns_cached p1 r H1),
          (getPortfolioReturns_cached p2 r H2).
  destruct (series_empty (dropna r)) eqn:He; [reflexivity|].
  destruct (last_date_nonempty _ He) as (d & Hd).
  unfold get_self, modify, raise, ret. cbn [fst snd].
  rewrite Hd, Hs.
  rewrite (simulated_columns_ignore_generator _ _ _ _ _ _ g1 g2).
  now destruct (aggregate_metrics _).
Qed.

Lemma monteCarloSimulation_cached_frame n h p r g t :
  portfolio_returns p = Some r ->
  let p' := state_after (monteCarloSimulation n h g t p) in
  portfolio_returns p' = Some r /\ stocks p' = stocks p.
Proof.
  intros H. unfold monteCarloSimulation, bind.
  rewrite (getPortfolioReturns_cached p r H).
  destruct (series_empty (dropna r)); [cbn; auto|].
  unfold get_self, modify, raise, ret. cbn [fst snd].
  destruct (aggregate_metrics _); cbn; auto.
Qed.

(** The first thing a simulation does is to fill the cache. *)
Lemma monteCarloSimulation_fills n h g t self r :
  getPortfolioReturns self = (with_portfolio_returns (Some r) self, inr r) ->
  monteCarloSimulation n h g t self
  = monteCarloSimulation n h g t (with_portfolio_returns (Some r) self).
Proof.
  intro H. unfold monteCarloSimulation, bind. rewrite H.
  now rewrite (getPortfolioReturns_cached
                 (with_portfolio_returns (Some r) self) r eq_refl).
Qed.

(** Two portfolios with the same portfolio return series and the same
    total value simulate the same paths. *)
Lemma monteCarloSimulation_same_inputs n h self1 self2 g1 g2 t1 t2 :
  outcome (getPortfolioReturns self1) = outcome (getPortfolioReturns self2) ->
  total_value (stocks self1) = total_value (stocks self2) ->
  path_table (outcome (monteCarloSimulation n h g1 t1 self1))
  = path_table (outcome (monteCarloSimulation n h g2 t2 self2)).
Proof.
  intros Hout Htot.
  destruct (getPortfolioReturns_run self1) as [(e1 & He1)|(r1 & Hr1)];
    destruct (getPortfolioReturns_run self2) as [(e2 & He2)|(r2 & Hr2)];
    rewrite ?He1, ?He2, ?Hr1, ?Hr2 in Hout; unfold outcome in Hout;
    cbn [snd] in Hout; try discriminate.
  - inversion Hout; subst e2.
    unfold monteCarloSimulation, bind. now rewrite He1, He2.
  - inversion Hout; subst r2.
    rewrite (monteCarloSimulation_fills _ _ _ _ _ _ Hr1),
            (monteCarloSimulation_fills _ _ _ _ _ _ Hr2).
    now apply (monteCarloSimulation_cached_agree _ _ _ _ r1).
Qed.

(** C5. For given numbers of paths and days, the table of simulated paths
    (or the exception raised) is the same whatever state numpy's global
    generator is in and whatever the wall clock says: a second call, made
    right after the first or on the same portfolio, reproduces the first,
    and so does a call on any portfolio with the same return series and
    the same total value. *)
Theorem monteCarloSimulation_deterministic
  num_simulations num_days self (g1 g2 : RandomState) (today1 today2 : date) :
  let first := monteCarloSimulation num_simulations num_days g1 today1 self in
  let again :=
    monteCarloSimulation num_simulations num_days g2 today2 (state_after first) in
  let afresh := monteCarloSimulation num_simulations num_days g2 today2 self in
  path_table (outcome first) = path_table (outcome again)
  /\ path_table (outcome first) = path_table (outcome afresh)
  /\ forall other,
       outcome (getPortfolioReturns other) = outcome (getPortfolioReturns self) ->
       total_value (stocks other) = total_value (stocks self) ->
       path_table (outcome first)
       = path_table
           (outcome (monteCarloSimulation num_simulations num_days g2 today2 other)).
Proof.
  cbv zeta. split; [|split].
  - destruct (getPortfolioReturns_run self) as [(e & He)|(r & Hr)].
    + assert (Hraise : forall g t,
                monteCarloSimulation num_simulations num_days g t self
                = (self, inl e))
        by (intros; unfold monteCarloSimulation, bind; now rewrite He).
      rewrite (Hraise g1 today1). unfold state_after. cbn [fst].
      now rewrite (Hraise g2 today2).
    + rewrite !(monteCarloSimulation_fills _ _ _ _ _ _ Hr).
      set (p := with_portfolio_returns (Some r) self).
      assert (Hp : portfolio_returns p = Some r) by reflexivity.
      destruct (monteCarloSimulation_cached_frame
                  num_simulations num_days p r g1 today1 Hp) as (Hc & Hs).
      apply (monteCarloSimulation_cached_agree _ _ _ _ r); auto.
      now rewrite Hs.
  - now apply monteCarloSimulation_same_inputs.
  - intros other Hout Htot. now apply monteCarloSimulation_same_inputs.
Qed.

End MonteCarlo.

Lemma oversell_raises_and_keeps_state_witness :
  outcome (update_stock (E := plain_externals) "A" 200 5 false one_holding)
  = inl (ValueError "Insufficient value in A to sell.")
  /\ state_after (update_stock (E := plain_externals) "A" 200 5 false one_holding)
     = one_holding.
Proof.
  destruct (oversell_raises_and_keeps_state (E := plain_externals)
              one_holding "A" 200 5 (holding "A" 100 100) eq_refl)
    as [H _].
  destruct (H eq_refl) as (H1 & H2 & _).
  split; assumption.
Defined.

Lemma zero_buy_at_zero_total_mutates_then_raises_witness :
  outcome (update_stock (E := plain_externals) "B" 0 5 true no_holding)
  = inl (ValueError "Total portfolio value is zero.")
  /\ state_after (update_stock (E := plain_externals) "B" 0 5 true no_holding)
     <> no_holding.
Proof.
  destruct (zero_buy_at_zero_total_mutates_then_raises (E := plain_externals)
              no_holding "B" 0 5 eq_refl eq_refl eq_refl)
    as (H1 & _ & _ & H2).
  split; assumption.
Defined.

Lemma buy_then_sell_leaves_investment_raised_witness :
  exists st',
    Dict.get "A"
      (stocks (state_after
         (update_stock (E := plain_externals) "A" 2 5 false
            (state_after
               (update_stock (E := plain_externals) "A" 2 5 true one_holding)))))
    = Some st'
    /\ getAmount st' = 100 + 2 * 5 - 2 * 5
    /\ investment st' = 100 + 2 * 5.
Proof.
  assert (Hwf : Dict.wf (stocks one_holding)).
  { unfold Dict.wf. simpl. constructor; [simpl; tauto|constructor]. }
  assert (Hpos : 0 <= getAmount (holding "A" 100 100))
    by (vm_compute; discriminate).
  exact (proj1 (proj2
    (buy_then_sell_leaves_investment_raised (E := plain_externals)
       one_holding "A" 2 5 (holding "A" 100 100) Hwf eq_refl Hpos)) eq_refl).
Defined.

(** C2 fails on the investment: after buying 2 at 5 and selling 2 at 5
    (both calls return normally) the amount of A is 100 again, its
    investment is 110 and not 100. *)
Lemma roundtrip_investment_counterexample :
  let bought := update_stock (E := plain_externals) "A" 2 5 true one_holding in
  let sold :=
    update_stock (E := plain_externals) "A" 2 5 false (state_after bought) in
  Dict.get "A" (stocks one_holding) = Some (holding "A" 100 100)
  /\ 2 * 5 <= getAmount (holding "A" 100 100)
  /\ outcome bought = inr tt
  /\ outcome sold = inr tt
  /\ exists st',
       Dict.get "A" (stocks (state_after sold)) = Some st'
       /\ getAmount st' == getAmount (holding "A" 100 100)
       /\ ~ investment st' == investment (holding "A" 100 100).
Proof.
  cbv zeta. split; [reflexivity|]. split; [vm_compute; discriminate|].
  split; [reflexivity|]. split; [reflexivity|].
  eexists. split; [vm_compute; reflexivity|].
  split; [reflexivity|].
  intro H. vm_compute in H. discriminate.
Defined.

Lemma update_stock_keeps_caches_witness :
  let cached := state_after (getPortfolioReturns two_holdings) in
  let self' := state_after (update_stock (E := plain_externals) "A" 10 10 true cached) in
  getPortfolioReturns self'
  = (self', inr [(1%Z, Some (80 # 400))]).
Proof.
  cbv zeta.
  exact (proj1 (proj2 (proj2
    (update_stock_keeps_caches (E := plain_externals)
       (state_after (getPortfolioReturns two_holdings))
       "A" 10 10 true))) _ eq_refl).
Defined.

(** C1 fails: with the portfolio returns cached while A and B weigh one
    half each, a buy of A moves the weights to 2/3 and 1/3 and returns
    normally; [getPortfolioReturns] still hands out the series cached
    before (20% on day 1), not the one the holdings now give (1/6). *)
Lemma stale_returns_counterexample :
  let cached :=
    state_after (getPortfolioReturns two_holdings) in
  let r := update_stock (E := plain_externals) "A" 10 10 true cached in
  let self' := state_after r in
  outcome r = inr tt
  /\ exists old new,
       outcome (getPortfolioReturns two_holdings)
       = inr [(1%Z, Some old)]
       /\ outcome (getPortfolioReturns self')
          = inr [(1%Z, Some old)]
       /\ outcome (getAdjustedReturns self') = inr [(1%Z, Some new)]
       /\ ~ old == new.
Proof.
  cbv zeta. split; [reflexivity|].
  eexists. eexists.
  split; [vm_compute; reflexivity|].
  split; [vm_compute; reflexivity|].
  split; [vm_compute; reflexivity|].
  intro H. vm_compute in H. discriminate.
Defined.





Lemma monteCarloSimulation_deterministic_witness :
  path_table
    (outcome (monteCarloSimulation (E := plain_externals) 2 3 5%nat 0%Z
                up_then_down))
  = path_table
      (outcome (monteCarloSimulation (E := plain_externals) 2 3 9%nat 77%Z
                  prefilled)).
Proof.
  exact (proj2 (proj2
    (monteCarloSimulation_deterministic (E := plain_externals)
       2 3 up_then_down 5%nat 9%nat 0%Z 77%Z)) prefilled eq_refl eq_refl).
Defined.

(** ** Where rounding decides: runs in binary64 *)

Module Binary64Facts.
Import PrimFloat Binary64.
Local Open Scope float_scope.
#[local] Set Warnings "-inexact-float".



(** The amount after a buy and the sell of the same quantity at the same
    price is the difference the code computes, not the amount of before:
    from 0.1, buying and selling 0.2 leaves 0.10000000000000003 (and the
    investment at 0.30000000000000004). *)
Example buy_then_sell_amount_drifts :
  let bought := update_stock "A" 0.2 1 true (one_holding "A" 0.1) in
  let sold := update_stock "A" 0.2 1 false (fst bought) in
  snd bought = inr tt
  /\ snd sold = inr tt
  /\ stocks (fst sold)
     = [("A", mkStock "A" 0.30000000000000004 0.10000000000000003)].
Proof. vm_compute. repeat split. Qed.

(** From an amount of 1, buying and selling for 1e17 leaves a computed
    difference of 0, and the sell removes the holding. *)
Example buy_then_sell_removes_small_holding :
  let bought := update_stock "A" 1e17 1 true (one_holding "A" 1) in
  let sold := update_stock "A" 1e17 1 false (fst bought) in
  snd bought = inr tt
  /\ snd sold = inr tt
  /\ stocks (fst sold) = []
  /\ weights (fst sold) = [].
Proof. vm_compute. repeat split. Qed.

End Binary64Facts.

(** ** The examples of the specification *)

(** Two holdings worth 6000 and 4000 weigh 0.6 and 0.4. *)
Example weights_6000_4000 :
  exists self,
    init [("A", holding "A" 6000 6000); ("B", holding "B" 4000 4000)] 0 0
    = inr self
    /\ Qeq_bool (get_default "A" 0 (weights self)) (6 # 10) = true
    /\ Qeq_bool (get_default "B" 0 (weights self)) (4 # 10) = true.
Proof. eexists. repeat split. Qed.

(** Buying 10 shares at 50 of a holding worth 500 makes it worth 1000 and
    adds 500 to its investment. *)
Example buy_10_at_50 :
  let self := portfolio_of [("A", holding "A" 500 500)] [("A", 1)] in
  Dict.get "A"
    (stocks (state_after
               (update_stock (E := plain_externals) "A" 10 50 true self)))
  = Some (holding "A" (500 + 10 * 50) (500 + 10 * 50)).
Proof. reflexivity. Qed.

(** * Further properties of the class *)

(** ** Dictionaries, continued *)

Lemma Forall_set {V} (P : V -> Prop) k v (d : Dict.t V) :
  Forall (fun it => P (snd it)) d -> P v ->
  Forall (fun it => P (snd it)) (Dict.set k v d).
Proof.
  intros Hall Hv. induction Hall as [|[k' v'] d Hh Hall IH]; simpl.
  - now repeat constructor.
  - destruct (String.eqb k k'); constructor; auto.
Qed.

Lemma Forall_del {V} (P : V -> Prop) k (d : Dict.t V) :
  Forall (fun it => P (snd it)) d ->
  Forall (fun it => P (snd it)) (Dict.del k d).
Proof.
  intros Hall. induction Hall as [|[k' v'] d Hh Hall IH]; simpl.
  - constructor.
  - destruct (String.eqb k k'); [assumption|now constructor].
Qed.

(** ** The outcomes of [update_stock] *)

Section UpdateStockMore.
Context {E : Externals}.

Lemma recalculate_weights_cases self :
  (exists w, recalculate_weights self = (with_weights w self, inr tt))
  \/ (recalculate_weights self
      = (self, inl (ValueError "Total portfolio value is zero."))
      /\ stocks self <> [] /\ total_value (stocks self) == 0).
Proof.
  destruct (stocks self) as [|it d] eqn:Hs.
  - left. eexists. now apply recalculate_weights_empty.
  - assert (Hne : stocks self <> []) by congruence. rewrite <- Hs.
    destruct (Qeqb (total_value (stocks self)) 0) eqn:Hz.
    + apply Qeqb_eq in Hz. right.
      split; [now apply recalculate_weights_zero_total|now split].
    + apply Qeqb_neq in Hz. left. eexists.
      now apply recalculate_weights_ok.
Qed.

(** The holdings [update_stock] hands to the weight recomputation, when it
    gets that far. *)
Lemma update_stock_reaches self sym q px inc :
  (exists e, update_stock sym q px inc self = (self, inl e)
             /\ inc = false
             /\ ((Dict.get sym (stocks self) = None
                  /\ e = ValueError ("Unable to sell " ++ sym
                                     ++ " that is not in the portfolio."))
                 \/ (exists st, Dict.get sym (stocks self) = Some st
                                /\ value st < q * px
                                /\ e = ValueError ("Insufficient value in "
                                                   ++ sym ++ " to sell."))))
  \/ (exists d, update_stock sym q px inc self
                = recalculate_weights (with_stocks d self)).
Proof.
  destruct (Dict.get sym (stocks self)) as [st|] eqn:Hg; destruct inc.
  - right. rewrite (update_stock_buy_held _ _ _ _ _ Hg). cbv zeta.
    eexists. reflexivity.
  - rewrite (update_stock_sell_held _ _ _ _ _ Hg).
    destruct (Qltb (value st) (q * px)) eqn:Hlt.
    + left. eexists. split; [reflexivity|]. split; [reflexivity|].
      right. exists st. apply Qltb_lt in Hlt. auto.
    + right. eexists. reflexivity.
  - right. rewrite (update_stock_buy_new _ _ _ _ Hg). cbv zeta.
    eexists. reflexivity.
  - left. eexists. split; [now apply update_stock_sell_absent|].
    split; [reflexivity|]. now left.
Qed.

(** X1. Every call of [update_stock] either returns, or raises one of
    three [ValueError]s and never a [KeyError].  The two refusals of a
    sell (symbol not held, value below the sale) leave the portfolio
    exactly as it was; "Total portfolio value is zero" is raised after the
    holdings were written: the holdings left are non-empty and worth zero
    in total, and the weights are those of before the call. *)
Theorem update_stock_outcomes self sym q px inc :
  let r := update_stock sym q px inc self in
  outcome r = inr tt
  \/ (outcome r
      = inl (ValueError ("Unable to sell " ++ sym
                         ++ " that is not in the portfolio."))
      /\ inc = false /\ Dict.get sym (stocks self) = None
      /\ state_after r = self)
  \/ (outcome r = inl (ValueError ("Insufficient value in " ++ sym ++ " to sell."))
      /\ inc = false
      /\ (exists st, Dict.get sym (stocks self) = Some st /\ value st < q * px)
      /\ state_after r = self)
  \/ (outcome r = inl (ValueError "Total portfolio value is zero.")
      /\ stocks (state_after r) <> []
      /\ total_value (stocks (state_after r)) == 0
      /\ weights (state_after r) = weights self).
Proof.
  cbv zeta.
  destruct (update_stock_reaches self sym q px inc)
    as [(e & -> & Hinc & [(Hg & ->)|(st & Hg & Hlt & ->)])|(d & ->)].
  - right. left. auto.
  - right. right. left. repeat split; eauto.
  - destruct (recalculate_weights_cases (with_stocks d self))
      as [(w & ->)|(-> & Hne & Hz)].
    + now left.
    + right. right. right. auto.
Qed.

(** X2. [update_stock] on one symbol leaves every other holding as it
    was, whether it returns or raises. *)
Theorem update_stock_keeps_other_holdings self sym q px inc k :
  k <> sym ->
  Dict.get k (stocks (state_after (update_stock sym q px inc self)))
  = Dict.get k (stocks self).
Proof.
  intro Hne.
  assert (Hne' : sym <> k) by congruence.
  destruct (Dict.get sym (stocks self)) as [st|] eqn:Hg; destruct inc.
  - rewrite (update_stock_buy_held _ _ _ _ _ Hg). cbv zeta.
    match goal with |- context [recalculate_weights ?p] =>
      destruct (recalculate_weights_frame p) as (-> & _) end.
    cbn [stocks with_stocks]. now apply DictFacts.get_set_other.
  - rewrite (update_stock_sell_held _ _ _ _ _ Hg).
    destruct (Qltb _ _); [reflexivity|]. cbv zeta.
    match goal with |- context [recalculate_weights ?p] =>
      destruct (recalculate_weights_frame p) as (-> & _) end.
    cbn [stocks with_stocks].
    destruct (Qeqb _ _); [rewrite get_del_other by assumption|];
      now apply DictFacts.get_set_other.
  - rewrite (update_stock_buy_new _ _ _ _ Hg). cbv zeta.
    match goal with |- context [recalculate_weights ?p] =>
      destruct (recalculate_weights_frame p) as (-> & _) end.
    cbn [stocks with_stocks].
    rewrite <- (DictFacts.set_fresh _ _ _ Hg).
    now apply DictFacts.get_set_other.
  - now rewrite (update_stock_sell_absent _ _ _ _ Hg).
Qed.

(** X3. Selling a holding for exactly its amount removes it: the symbol is
    no longer held, the other holdings keep their order, and when it was
    the only holding the call returns with an empty weight mapping. *)
Theorem sell_entire_amount_removes_holding self sym q px st :
  Dict.wf (stocks self) ->
  Dict.get sym (stocks self) = Some st ->
  q * px == getAmount st ->
  let r := update_stock sym q px false self in
  stocks (state_after r) = Dict.del sym (stocks self)
  /\ Dict.get sym (stocks (state_after r)) = None
  /\ (Dict.del sym (stocks self) = [] ->
      outcome r = inr tt /\ weights (state_after r) = []).
Proof.
  intros Hwf Hg Hq r. subst r. unfold getAmount in Hq.
  rewrite (update_stock_sell_held _ _ _ _ _ Hg).
  assert (Hchk : Qltb (value st) (q * px) = false)
    by (apply Qltb_ge; rewrite Hq; lra).
  rewrite Hchk. cbv zeta.
  assert (Hz : Qeqb (value (set_value (getAmount st - q * px) st)) 0 = true)
    by (apply Qeqb_eq; unfold getAmount; cbn [value set_value]; lra).
  rewrite Hz, del_set_same.
  set (p := with_stocks _ self).
  destruct (recalculate_weights_frame p) as (Hs & _).
  cbv zeta in Hs. rewrite Hs. subst p. cbn [stocks with_stocks].
  split; [reflexivity|]. split; [now apply get_del_same|].
  intro Hempty.
  now rewrite recalculate_weights_empty by exact Hempty.
Qed.

Lemma total_value_positive (d : Dict.t Stock) :
  d <> [] -> Forall (fun it => 0 < getAmount (snd it)) d -> 0 < total_value d.
Proof.
  intros Hne Hall. induction Hall as [|it d Hpos Hall IH]; [congruence|].
  rewrite total_value_cons.
  destruct d as [|it' d'].
  - unfold total_value, Qsum. simpl. lra.
  - assert (0 < total_value (it' :: d')) by (apply IH; discriminate). lra.
Qed.

Lemma total_value_nonneg (d : Dict.t Stock) :
  Forall (fun it => 0 < getAmount (snd it)) d -> 0 <= total_value d.
Proof.
  intro Hall. destruct d as [|it d'].
  - unfold total_value, Qsum. simpl. lra.
  - apply Qlt_le_weak, total_value_positive; [discriminate|assumption].
Qed.

Lemma amount_le_total (d : Dict.t Stock) it :
  Forall (fun it => 0 < getAmount (snd it)) d -> In it d ->
  getAmount (snd it) <= total_value d.
Proof.
  intros Hall. induction Hall as [|it' d Hpos Hall IH]; intros Hin;
    [contradiction|].
  rewrite total_value_cons. pose proof (total_value_nonneg d Hall).
  destruct Hin as [->|Hin]; [lra|]. specialize (IH Hin). lra.
Qed.

(** The holdings after a call, when all amounts were positive before. *)
Lemma update_stock_positive_reaches self sym q px inc :
  Forall (fun it => 0 < getAmount (snd it)) (stocks self) ->
  (inc = true -> 0 < q * px) ->
  (exists e, update_stock sym q px inc self = (self, inl e)
             /\ e <> ValueError "Total portfolio value is zero."
             /\ inc = false)
  \/ (exists d, update_stock sym q px inc self
                = recalculate_weights (with_stocks d self)
                /\ Forall (fun it => 0 < getAmount (snd it)) d
                /\ (inc = true -> d <> [])).
Proof.
  intros Hall Hbuy.
  destruct (Dict.get sym (stocks self)) as [st|] eqn:Hg; destruct inc.
  - right. rewrite (update_stock_buy_held _ _ _ _ _ Hg). cbv zeta.
    eexists. split; [reflexivity|].
    split; [|intros _; apply set_nonempty].
    apply (Forall_set (fun st => 0 < getAmount st)); [assumption|].
    unfold getAmount. cbn [value set_value set_investment].
    apply DictFacts.get_In in Hg. rewrite Forall_forall in Hall.
    specialize (Hall _ Hg). specialize (Hbuy eq_refl).
    unfold getAmount in Hall. cbn [snd] in Hall. lra.
  - rewrite (update_stock_sell_held _ _ _ _ _ Hg).
    destruct (Qltb (value st) (q * px)) eqn:Hlt.
    + left. eexists. split; [reflexivity|]. split; [discriminate|reflexivity].
    + right. eexists. split; [reflexivity|]. split; [|discriminate].
      apply Qltb_ge in Hlt.
      destruct (Qeqb _ _) eqn:Hz.
      * rewrite del_set_same.
        now apply (Forall_del (fun st => 0 < getAmount st)).
      * apply Qeqb_neq in Hz.
        apply (Forall_set (fun st => 0 < getAmount st)); [assumption|].
        unfold getAmount in *. cbn [value set_value] in *. lra.
  - right. rewrite (update_stock_buy_new _ _ _ _ Hg). cbv zeta.
    eexists. split; [reflexivity|].
    split; [|intros _; destruct (stocks self); discriminate].
    apply Forall_app. split; [assumption|].
    constructor; [|constructor]. cbn [snd]. unfold new_Stock.
    destruct (listing sym) as [[qy c] ar].
    unfold getAmount. cbn [value set_value set_investment].
    specialize (Hbuy eq_refl). lra.
  - left. eexists. split; [now apply update_stock_sell_absent|].
    split; [discriminate|reflexivity].
Qed.

(** X4. Positive amounts are an invariant: when every holding has a
    positive amount, it is still so after any sell and after any buy of a
    positive quantity times price, whether the call returns or raises. *)
Theorem update_stock_keeps_amounts_positive self sym q px inc :
  Forall (fun it => 0 < getAmount (snd it)) (stocks self) ->
  (inc = true -> 0 < q * px) ->
  Forall (fun it => 0 < getAmount (snd it))
         (stocks (state_after (update_stock sym q px inc self))).
Proof.
  intros Hall Hbuy.
  destruct (update_stock_positive_reaches self sym q px inc Hall Hbuy)
    as [(e & -> & _)|(d & -> & Hd & _)]; [assumption|].
  destruct (recalculate_weights_frame (with_stocks d self)) as (-> & _).
  exact Hd.
Qed.

Lemma weights_loop_values {A} (P : Q -> Prop) (f : A -> Q)
  (d : Dict.t A) (acc : Dict.t Q) :
  Forall (fun it => P (snd it)) acc ->
  Forall (fun it => P (f (snd it))) d ->
  Forall (fun it => P (snd it))
    (fold_left (fun w (it : string * A) => Dict.set (fst it) (f (snd it)) w)
               d acc).
Proof.
  intros Hacc Hd. revert acc Hacc.
  induction Hd as [|it d Hit Hd IH]; intros acc Hacc; simpl; [assumption|].
  apply IH. now apply (Forall_set P).
Qed.

(** X5. When every holding has a positive amount, a sell, and a buy of a
    positive quantity times price, never raise "Total portfolio value is
    zero": such a buy always returns, a sell raises nothing but its two
    refusals, and after such a call that returns every weight lies in
    [0, 1].  (A buy of a negative quantity times price is not covered: it
    can bring the total to zero.) *)
Theorem update_stock_on_positive_amounts self sym q px inc :
  Forall (fun it => 0 < getAmount (snd it)) (stocks self) ->
  (inc = true -> 0 < q * px) ->
  let r := update_stock sym q px inc self in
  outcome r <> inl (ValueError "Total portfolio value is zero.")
  /\ (inc = true -> outcome r = inr tt)
  /\ (outcome r = inr tt ->
      forall k w, Dict.get k (weights (state_after r)) = Some w ->
                  0 <= w <= 1).
Proof.
  intros Hall Hbuy r. subst r.
  destruct (update_stock_positive_reaches self sym q px inc Hall Hbuy)
    as [(e & -> & Hne & Hinc)|(d & -> & Hd & Hdne)].
  - unfold outcome. cbn [snd].
    split; [congruence|]. split; [congruence|discriminate].
  - destruct d as [|it d'] eqn:Hdeq.
    + rewrite recalculate_weights_empty by reflexivity.
      unfold outcome, state_after. cbn [fst snd weights with_weights].
      split; [discriminate|]. split; [reflexivity|].
      intros _ k w Hg. discriminate.
    + rewrite <- Hdeq in *.
      assert (Hne : d <> []) by (rewrite Hdeq; discriminate).
      pose proof (total_value_positive d Hne Hd) as Htot.
      rewrite recalculate_weights_ok;
        [|exact Hne|cbn [stocks with_stocks]; lra].
      unfold outcome, state_after. cbn [fst snd weights with_weights stocks
                                        with_stocks].
      split; [discriminate|]. split; [reflexivity|].
      intros _ k w Hg. apply DictFacts.get_In in Hg.
      assert (Hval : Forall (fun it : string * Q => 0 <= snd it <= 1)
                (fold_left
                   (fun w (it : string * Stock) =>
                      Dict.set (fst it) (getAmount (snd it) / total_value d) w)
                   d Dict.empty)).
      { apply (weights_loop_values (fun w => 0 <= w <= 1)
                 (fun st => getAmount st / total_value d)); [constructor|].
        rewrite Forall_forall. intros it0 Hin.
        rewrite Forall_forall in Hd. pose proof (Hd _ Hin) as Hpos.
        pose proof (amount_le_total d it0 ltac:(now rewrite Forall_forall) Hin).
        split.
        - apply Qle_shift_div_l; lra.
        - apply Qle_shift_div_r; lra. }
      rewrite Forall_forall in Hval. exact (Hval _ Hg).
Qed.

(** X6. [__init__] raises "Total portfolio value is zero" exactly when
    the sum of the amounts, as [getWeights] adds them up, is zero, so in
    particular for no holding at all; otherwise the new portfolio has the
    given holdings, rate and cash, empty caches, and as weights, under
    the keys of the holdings, each amount divided by that sum. *)
Theorem init_weights (d : Dict.t Stock) rf cash :
  Dict.wf d ->
  (total_value d == 0 <->
   init d rf cash = inl (ValueError "Total portfolio value is zero."))
  /\ (forall self, init d rf cash = inr self ->
        stocks self = d /\ RF self = rf /\ cash_balance self = cash
        /\ portfolio_returns self = None
        /\ portfolio_excess_returns self = None
        /\ Dict.keys (weights self) = Dict.keys d
        /\ (forall k st, Dict.get k d = Some st ->
              Dict.get k (weights self) = Some (getAmount st / total_value d))).
Proof.
  intro Hwf. unfold init, getWeights, bind, get_self, raise, ret, outcome.
  cbn [stocks fst snd].
  destruct (Qeqb (total_value d) 0) eqn:Hz; cbn [snd].
  - apply Qeqb_eq in Hz. split; [tauto|]. discriminate.
  - apply Qeqb_neq in Hz. split; [split; [contradiction|discriminate]|].
    intros self Hself. inversion Hself; subst self.
    cbn [stocks RF cash_balance portfolio_returns portfolio_excess_returns
         weights with_weights].
    rewrite (fold_set_distinct (fun st : Stock => getAmount st / total_value d))
      by exact Hwf.
    cbn [app Dict.empty].
    repeat split.
    + unfold Dict.keys. now rewrite map_map.
    + intros k st Hg.
      now rewrite (get_map_values
                     (fun st : Stock => getAmount st / total_value d)), Hg.
Qed.

End UpdateStockMore.

(** ** The return engine without complete data *)

Lemma keys_set_incl {V} k (v : V) d x :
  In x (Dict.keys (Dict.set k v d)) -> x = k \/ In x (Dict.keys d).
Proof.
  induction d as [|[k' v'] d IH]; simpl.
  - intros [H|[]]; auto.
  - destruct (String.eqb k k'); simpl; intros [H|H]; auto.
    destruct (IH H); auto.
Qed.

Lemma assign_column_keys name s df x :
  In x (Dict.keys (df_columns (assign_column name s df))) ->
  x = name \/ In x (Dict.keys (df_columns df)).
Proof.
  unfold assign_column.
  destruct (df_index df) as [|i idx], (df_columns df) as [|c cols];
    cbn [df_columns]; try apply keys_set_incl.
  simpl. intros [H|[]]. now left.
Qed.

(** A frame is either untouched or has both an index and a column. *)
Lemma assign_column_filled name s df :
  s <> [] ->
  (df_index df = [] /\ df_columns df = [])
  \/ (df_index df <> [] /\ df_columns df <> []) ->
  df_index (assign_column name s df) <> []
  /\ df_columns (assign_column name s df) <> [].
Proof.
  intros Hs [[Hi Hc]|[Hi Hc]]; unfold assign_column.
  - rewrite Hi, Hc. cbn. destruct s; [congruence|]. split; discriminate.
  - destruct (df_index df) as [|i idx]; [congruence|].
    destruct (df_columns df) as [|c cols] eqn:Hcols; [congruence|].
    cbn [df_index df_columns]. split; [discriminate|apply set_nonempty].
Qed.

Local Abbreviation adjusted_step :=
  (fun (df : DataFrame) (st : Stock) =>
     let r := getAdjustedReturns_stock st in
     if negb (series_empty r) then assign_column (symbol st) r df else df).

Lemma adjusted_frame_stays_filled (l : list Stock) : forall df0,
  df_index df0 <> [] /\ df_columns df0 <> [] ->
  df_index (fold_left adjusted_step l df0) <> []
  /\ df_columns (fold_left adjusted_step l df0) <> [].
Proof.
  induction l as [|st l IH]; intros df0 Hfilled; cbn [fold_left];
    [assumption|].
  apply IH. change (getAdjustedReturns_stock st) with (adjusted_returns st).
  destruct (adjusted_returns st) as [|c r]; cbn [series_empty negb];
    [assumption|].
  apply assign_column_filled; [discriminate|now right].
Qed.

Lemma adjusted_frame_filled (l : list Stock) :
  (exists st, In st l /\ adjusted_returns st <> []) ->
  frame_empty (fold_left adjusted_step l empty_frame) = false.
Proof.
  intros Hex.
  assert (Hfilled : df_index (fold_left adjusted_step l empty_frame) <> []
                    /\ df_columns (fold_left adjusted_step l empty_frame) <> []).
  { induction l as [|st l IH]; [destruct Hex as (st & [] & _)|].
    cbn [fold_left].
    change (getAdjustedReturns_stock st) with (adjusted_returns st).
    destruct (adjusted_returns st) as [|c r] eqn:Hr; cbn [series_empty negb].
    - apply IH. destruct Hex as (st' & [<-|Hin] & Hne); [congruence|eauto].
    - apply adjusted_frame_stays_filled.
      apply assign_column_filled; [discriminate|now left]. }
  unfold frame_empty.
  destruct (df_index _); [now destruct Hfilled|].
  destruct (df_columns _); [now destruct Hfilled|reflexivity].
Qed.

Lemma adjusted_frame_untouched (l : list Stock) df0 :
  (forall st, In st l -> adjusted_returns st = []) ->
  fold_left adjusted_step l df0 = df0.
Proof.
  induction l as [|st l IH]; intro Hall; cbn [fold_left]; [reflexivity|].
  change (getAdjustedReturns_stock st) with (adjusted_returns st).
  rewrite (Hall st (or_introl eq_refl)). cbn [series_empty negb].
  apply IH. intros st' Hin. apply Hall. now right.
Qed.

Lemma adjusted_frame_columns (l : list Stock) : forall df0 x,
  In x (Dict.keys (df_columns (fold_left adjusted_step l df0))) ->
  In x (Dict.keys (df_columns df0))
  \/ exists st, In st l /\ symbol st = x /\ adjusted_returns st <> [].
Proof.
  induction l as [|st l IH]; intros df0 x Hx; cbn [fold_left] in Hx;
    [now left|].
  destruct (IH _ x Hx) as [H|(st' & Hin & Hsym & Hne)].
  - change (getAdjustedReturns_stock st) with (adjusted_returns st) in H.
    destruct (adjusted_returns st) as [|c r] eqn:Hr;
      cbn [series_empty negb] in H; [now left|].
    apply assign_column_keys in H. destruct H as [->|H]; [|now left].
    right. exists st. split; [now left|]. split; [reflexivity|congruence].
  - right. exists st'. split; [now right|auto].
Qed.

Lemma existsb_eqb_false x l :
  ~ In x l -> existsb (String.eqb x) l = false.
Proof.
  induction l as [|y l IH]; simpl; [reflexivity|]. intro Hnin.
  destruct (String.eqb x y) eqn:Hxy.
  - apply String.eqb_eq in Hxy. subst. tauto.
  - apply IH. tauto.
Qed.

Lemma forallb_false {A} (f : A -> bool) l x :
  In x l -> f x = false -> forallb f l = false.
Proof.
  induction l as [|y l IH]; simpl; [tauto|].
  intros [->|Hin] Hf; [now rewrite Hf|].
  rewrite (IH Hin Hf). apply andb_false_r.
Qed.

(** X7. A weight whose symbol has no adjusted-return series, next to a
    holding that has one, makes the weighted sum impossible:
    [getAdjustedReturns] raises "matrices are not aligned" and leaves the
    portfolio alone; with an empty cache so do [getPortfolioReturns]
    (nothing gets cached) and the metrics built on it. *)
Theorem returns_need_every_weighted_symbol self b :
  In b (Dict.keys (weights self)) ->
  (forall st, In st (Dict.values (stocks self)) -> symbol st = b ->
              adjusted_returns st = []) ->
  (exists st, In st (Dict.values (stocks self)) /\ adjusted_returns st <> []) ->
  let misaligned := ValueError "matrices are not aligned" in
  getAdjustedReturns self = (self, inl misaligned)
  /\ (portfolio_returns self = None ->
      getPortfolioReturns self = (self, inl misaligned)
      /\ (forall cl, getVaR cl self = (self, inl misaligned))
      /\ (forall cl, getCVaR cl self = (self, inl misaligned))
      /\ getMaxDrawdown self = (self, inl misaligned)).
Proof.
  intros Hb Hnone Hsome misaligned.
  assert (Hadj : getAdjustedReturns self = (self, inl misaligned)).
  { assert (Hlabels :
              same_labels
                (Dict.keys
                   (df_columns
                      (fold_left adjusted_step (Dict.values (stocks self))
                                 empty_frame)))
                (Dict.keys (weights self)) = false).
    { unfold same_labels. apply andb_false_iff. right.
      apply (forallb_false _ _ b Hb). apply existsb_eqb_false.
      intro Hin. apply adjusted_frame_columns in Hin.
      destruct Hin as [[]|(st & Hin & Hsym & Hne)].
      apply Hne. now apply Hnone. }
    pose proof (adjusted_frame_filled _ Hsome) as Hfilled.
    unfold getAdjustedReturns, bind, get_self, raise, ret, dot.
    cbv zeta in Hlabels, Hfilled |- *.
    now rewrite Hfilled, Hlabels. }
  split; [exact Hadj|]. intro Hcache.
  assert (Hpr : getPortfolioReturns self = (self, inl misaligned)).
  { unfold getPortfolioReturns, bind, get_self. rewrite Hcache.
    now rewrite Hadj. }
  split; [exact Hpr|].
  split; [intro cl; unfold getVaR, bind; now rewrite Hpr|].
  split; [intro cl; unfold getCVaR, bind; now rewrite Hpr|].
  unfold getMaxDrawdown, bind. now rewrite Hpr.
Qed.

(** X8. Without any adjusted-return series among the holdings nothing
    fails: the portfolio return series is empty (and cached as such), and
    VaR, CVaR (at any level, even outside [0, 1]) and the maximum
    drawdown are NaN. *)
Theorem no_return_data_means_not_available self :
  (forall st, In st (Dict.values (stocks self)) -> adjusted_returns st = []) ->
  portfolio_returns self = None ->
  let cached := with_portfolio_returns (Some []) self in
  getPortfolioReturns self = (cached, inr [])
  /\ (forall cl, getVaR cl self = (cached, inr NaN))
  /\ (forall cl, getCVaR cl self = (cached, inr NaN))
  /\ getMaxDrawdown self = (cached, inr NaN).
Proof.
  intros Hall Hcache cached.
  assert (Hpr : getPortfolioReturns self = (cached, inr [])).
  { pose proof (adjusted_frame_untouched _ empty_frame Hall) as Hdf.
    unfold getPortfolioReturns, getAdjustedReturns, bind, get_self, modify,
      ret.
    cbv zeta in Hdf |- *. rewrite Hcache, Hdf. reflexivity. }
  split; [exact Hpr|].
  split; [intro cl; unfold getVaR, bind; now rewrite Hpr|].
  split; [intro cl; unfold getCVaR, bind; now rewrite Hpr|].
  unfold getMaxDrawdown, bind. now rewrite Hpr.
Qed.

(** X9. The metrics read the holdings and write nothing but the return
    cache: after [getVaR], [getCVaR] or [getMaxDrawdown] the portfolio is
    the one [getPortfolioReturns] leaves, with the holdings, weights,
    rate, cash and excess-return cache of before. *)
Theorem metrics_only_fill_the_return_cache self cl :
  let after := state_after (getPortfolioReturns self) in
  state_after (getVaR cl self) = after
  /\ state_after (getCVaR cl self) = after
  /\ state_after (getMaxDrawdown self) = after
  /\ stocks after = stocks self /\ weights after = weights self
  /\ RF after = RF self /\ cash_balance after = cash_balance self
  /\ portfolio_excess_returns after = portfolio_excess_returns self.
Proof.
  cbv zeta.
  destruct (getPortfolioReturns_run self) as [(e & He)|(r & Hr)].
  - unfold getVaR, getCVaR, getMaxDrawdown, bind. rewrite He.
    unfold state_after. cbn [fst]. repeat split.
  - pose proof (getPortfolioReturns_twice _ _ _ Hr) as Hagain.
    assert (HVaR : forall p, getPortfolioReturns p
                             = (with_portfolio_returns (Some r) self, inr r) ->
              state_after (getVaR cl p) = with_portfolio_returns (Some r) self).
    { intros p Hp. unfold getVaR, bind. rewrite Hp.
      destruct (series_empty _); [reflexivity|].
      now destruct (percentile _ _) as [e|v]. }
    unfold getCVaR, getMaxDrawdown, bind. rewrite (HVaR self Hr), Hr.
    unfold state_after at 1 3 4 5 6 7 8 9. cbn [fst].
    split; [reflexivity|]. split.
    + destruct (series_empty _); [reflexivity|].
      specialize (HVaR _ Hagain).
      destruct (getVaR cl (with_portfolio_returns (Some r) self))
        as [p [e|v]]; unfold state_after in HVaR; cbn [fst] in HVaR;
        subst p; reflexivity.
    + split; [now destruct (series_empty _)|]. repeat split.
Qed.

(** ** Percentiles *)





Section Interpolation.
Variable s : list Q.
Hypothesis s_sorted : StronglySorted Qle s.




End Interpolation.



(** X10. With at least one defined return, a confidence level below 0 or
    above 1 makes [getVaR] raise numpy's range error, and [getCVaR] with
    it. *)
Theorem VaR_level_out_of_range self cl pr :
  outcome (getPortfolioReturns self) = inr pr ->
  defined pr <> [] ->
  cl < 0 \/ 1 < cl ->
  let out_of_range :=
    ValueError "Percentiles must be in the range [0, 100]" in
  outcome (getVaR cl self) = inl out_of_range
  /\ outcome (getCVaR cl self) = inl out_of_range.
Proof.
  intros Hrun Hne Hcl out_of_range.
  destruct (getPortfolioReturns self) as [self' res] eqn:Hfirst.
  unfold outcome in Hrun. cbn [snd] in Hrun. subst res.
  pose proof (getPortfolioReturns_twice _ _ _ Hfirst) as Hsecond.
  assert (Hempty : series_empty (dropna pr) = false).
  { destruct (series_empty (dropna pr)) eqn:He; [|reflexivity].
    apply dropna_empty in He. contradiction. }
  assert (Hp : percentile (defined pr) (cl * 100) = inl out_of_range).
  { unfold percentile.
    assert (Hor : Qltb (cl * 100) 0 || Qltb 100 (cl * 100) = true).
    { apply orb_true_iff.
      destruct Hcl; [left|right]; apply Qltb_lt; lra. }
    now rewrite Hor. }
  assert (HVaR : forall p, getPortfolioReturns p = (self', inr pr) ->
                           getVaR cl p = (self', inl out_of_range)).
  { intros p Hp'. unfold getVaR, bind.
    now rewrite Hp', Hempty, defined_dropna, Hp. }
  split.
  - now rewrite (HVaR self Hfirst).
  - unfold getCVaR, bind. now rewrite Hfirst, Hempty, (HVaR self' Hsecond).
Qed.



(** ** Drawdown when no day loses more than everything *)





(** ** Dispersion metrics, availability, leave-one-out *)

Section Dispersion.
Context {E : Externals}.

Lemma std_needs_two xs : (List.length xs < 2)%nat -> std xs = NaN.
Proof. destruct xs as [|x [|y xs]]; simpl; [reflexivity|reflexivity|lia]. Qed.

(** X14. Below two observations the dispersion metrics are NaN and
    nothing is divided: the annualised standard deviation with fewer than
    two defined returns, the Sharpe ratio with fewer than two defined
    excess returns, the Sortino ratio with fewer than two negative excess
    returns. *)
Theorem dispersion_needs_two_observations self :
  (forall pr, outcome (getPortfolioReturns self) = inr pr ->
              (List.length (defined pr) < 2)%nat ->
              outcome (getPortfolioStdDev self) = inr NaN)
  /\ (forall er, outcome (getPortfolioExcessReturns self) = inr er ->
                 (List.length (defined er) < 2)%nat ->
                 outcome (getPortfolioSharpe self) = inr NaN)
  /\ (forall er, outcome (getPortfolioExcessReturns self) = inr er ->
                 (List.length (filter (fun x => Qltb x 0) (defined er)) < 2)%nat ->
                 outcome (getPortfolioSortino self) = inr NaN).
Proof.
  split; [|split].
  - intros pr Hrun Hlen.
    destruct (getPortfolioReturns self) as [self' res] eqn:Hfirst.
    unfold outcome in Hrun. cbn [snd] in Hrun. subst res.
    unfold getPortfolioStdDev, bind. rewrite Hfirst.
    destruct (series_empty (dropna pr)); [reflexivity|].
    now rewrite defined_dropna, (std_needs_two _ Hlen).
  - intros er Hrun Hlen.
    destruct (getPortfolioExcessReturns self) as [self' res] eqn:Hfirst.
    unfold outcome in Hrun. cbn [snd] in Hrun. subst res.
    unfold getPortfolioSharpe, bind. rewrite Hfirst.
    now rewrite defined_dropna, (std_needs_two _ Hlen).
  - intros er Hrun Hlen.
    destruct (getPortfolioExcessReturns self) as [self' res] eqn:Hfirst.
    unfold outcome in Hrun. cbn [snd] in Hrun. subst res.
    unfold getPortfolioSortino, bind. rewrite Hfirst, defined_dropna.
    destruct (filter _ (defined er)) as [|x l] eqn:Hneg; [reflexivity|].
    now rewrite (std_needs_two _ Hlen).
Qed.

End Dispersion.

(** X15. [has_stock] is false for a symbol that is not held; for a held
    symbol without any close price the last price counts as 0, so that
    every quantity is reported as available as soon as the amount is not
    negative. *)
Theorem has_stock_without_prices self sym :
  (Dict.get sym (stocks self) = None ->
   forall quantity, has_stock sym quantity self = false)
  /\ (forall st, Dict.get sym (stocks self) = Some st ->
        getClose st = [] ->
        forall quantity,
          has_stock sym quantity self = true <-> 0 <= getAmount st).
Proof.
  split.
  - intros Hg quantity. unfold has_stock. now rewrite Hg.
  - intros st Hg Hc quantity. unfold has_stock. rewrite Hg, Hc.
    cbn [series_empty negb]. unfold Qleb. rewrite Qle_bool_iff.
    split; intro H; [|setoid_replace (quantity * 0) with 0 by ring; exact H].
    setoid_replace (quantity * 0) with 0 in H by ring. exact H.
Qed.

Section LeaveOneOut.
Context {E : Externals}.

Lemma simulatePortfolioWithoutAsset_state sym self :
  state_after (simulatePortfolioWithoutAsset sym self) = self.
Proof.
  unfold simulatePortfolioWithoutAsset, bind, get_self, raise, ret,
    state_after. cbn [fst snd].
  destruct (negb _); [reflexivity|].
  destruct (filter _ _); [reflexivity|].
  destruct (init _ _ _) as [e|testp]; [reflexivity|].
  now destruct (outcome (getPortfolioStdDev testp)).
Qed.

(** X16. The leave-one-out volatility never changes the portfolio, not
    even its caches (the transient portfolio has its own); it is NaN for
    a symbol without a weight and when no other symbol is held. *)
Theorem leave_one_out_not_available self sym :
  state_after (simulatePortfolioWithoutAsset sym self) = self
  /\ (Dict.get sym (weights self) = None ->
      outcome (simulatePortfolioWithoutAsset sym self) = inr NaN)
  /\ ((forall it, In it (stocks self) -> fst it = sym) ->
      outcome (simulatePortfolioWithoutAsset sym self) = inr NaN).
Proof.
  split; [apply simulatePortfolioWithoutAsset_state|]. split.
  - intro Hw.
    unfold simulatePortfolioWithoutAsset, bind, get_self, ret, outcome,
      Dict.mem.
    cbn [fst snd]. now rewrite Hw.
  - intro Hall.
    unfold simulatePortfolioWithoutAsset, bind, get_self, ret, outcome.
    cbn [fst snd]. destruct (negb _); [reflexivity|].
    assert (Hf : filter (fun it : string * Stock =>
                           negb (String.eqb (fst it) sym)) (stocks self) = []).
    { induction (stocks self) as [|it d IH]; [reflexivity|]. cbn [filter].
      rewrite (Hall it (or_introl eq_refl)), String.eqb_refl. cbn [negb].
      apply IH. intros it' Hin. apply Hall. now right. }
    now rewrite Hf.
Qed.

(** X17. When the holdings left after taking a weighted symbol out are
    worth zero in total, the leave-one-out volatility is not NaN: the
    transient portfolio cannot be built and the call raises "Total
    portfolio value is zero". *)
Theorem leave_one_out_zero_remainder self sym :
  Dict.get sym (weights self) <> None ->
  let rest :=
    filter (fun it : string * Stock => negb (String.eqb (fst it) sym))
           (stocks self) in
  rest <> [] ->
  total_value rest == 0 ->
  simulatePortfolioWithoutAsset sym self
  = (self, inl (ValueError "Total portfolio value is zero.")).
Proof.
  intros Hw rest Hne Hz.
  unfold simulatePortfolioWithoutAsset, bind, get_self, raise, ret, Dict.mem.
  cbn [fst snd].
  destruct (Dict.get sym (weights self)); [|congruence]. cbn [negb].
  fold rest. destruct rest as [|it d] eqn:Hrest; [congruence|].
  unfold init, getWeights, bind, get_self, raise, outcome.
  cbn [stocks fst snd]. apply Qeqb_eq in Hz. now rewrite Hz.
Qed.

End LeaveOneOut.

(** ** The transaction replay engine *)

Lemma insertZ_perm x l : Permutation (insert Z.leb x l) (x :: l).
Proof.
  induction l as [|y l IH]; simpl; [reflexivity|].
  destruct (Z.leb x y); [reflexivity|].
  rewrite IH. apply perm_swap.
Qed.

Lemma isortZ_perm l : Permutation (isort Z.leb l) l.
Proof.
  induction l as [|x l IH]; simpl; [reflexivity|].
  unfold isort in IH. now rewrite insertZ_perm, IH.
Qed.

Lemma insertZ_sorted x l :
  StronglySorted Z.le l -> StronglySorted Z.le (insert Z.leb x l).
Proof.
  induction 1 as [|y l Hs IH Hall]; simpl.
  - repeat constructor.
  - destruct (Z.leb_spec x y) as [Hxy|Hxy].
    + constructor; [now constructor|].
      constructor; [assumption|].
      eapply Forall_impl; [|exact Hall]. intros z Hz. cbv beta in Hz. lia.
    + constructor; [assumption|].
      apply (Permutation_Forall (Permutation_sym (insertZ_perm x l))).
      constructor; [lia|assumption].
Qed.

Lemma isortZ_sorted l : StronglySorted Z.le (isort Z.leb l).
Proof.
  induction l as [|x l IH]; simpl; [constructor|].
  now apply insertZ_sorted.
Qed.

Lemma StronglySorted_filter {A} (R : A -> A -> Prop) f l :
  StronglySorted R l -> StronglySorted R (filter f l).
Proof.
  induction 1 as [|x l Hs IH Hall]; simpl; [constructor|].
  destruct (f x); [|assumption].
  constructor; [assumption|].
  rewrite Forall_forall in *. intros y Hy. apply filter_In in Hy.
  now apply Hall.
Qed.

Lemma unique_In l x : In x (unique l) <-> In x l.
Proof.
  induction l as [|d l IH]; simpl; [tauto|].
  rewrite filter_In, IH, negb_true_iff, Z.eqb_neq.
  destruct (Z.eq_dec d x); [subst|]; intuition congruence.
Qed.

(** Dropping the repetitions of an ascending list leaves a strictly
    ascending one. *)
Lemma unique_sorted l :
  StronglySorted Z.le l -> StronglySorted Z.lt (unique l).
Proof.
  induction 1 as [|d l Hs IH Hall]; simpl; [constructor|].
  constructor; [now apply StronglySorted_filter|].
  rewrite Forall_forall in *. intros y Hy.
  apply filter_In in Hy. destruct Hy as [Hy Hne].
  apply unique_In, Hall in Hy.
  apply negb_true_iff, Z.eqb_neq in Hne. lia.
Qed.

(** Sorting by insertion leaves a list that is in order as it is. *)
Lemma isort_in_order {A} (leb : A -> A -> bool) l :
  StronglySorted (fun x y => leb x y = true) l -> isort leb l = l.
Proof.
  induction 1 as [|x l Hs IH Hall]; [reflexivity|].
  cbn [isort fold_right]. fold (isort leb l). rewrite IH.
  destruct l as [|y l']; [reflexivity|].
  cbn [insert]. inversion Hall as [|? ? Hxy _]; subst. now rewrite Hxy.
Qed.

(** The step of the loop of [mark_to_market] over the holdings. *)
Local Abbreviation mark_step prices_df day by_stock :=
  (fun (acc : float * Row) (it : string * float) =>
     match Dict.get (fst it) (df_columns prices_df),
           index_of day (df_index prices_df) with
     | Some col, Some i =>
         let stock_val := fmul (snd it) (nth i col NaN) in
         (fadd (fst acc) stock_val,
          if by_stock : bool
          then Dict.set (fst it) (Number stock_val) (snd acc)
          else snd acc)
     | _, _ => acc
     end).

(** The loop writes under columns of the price table only, and only when
    asked for the per-symbol values: any other key keeps its cell. *)
Lemma mark_loop_get prices_df day by_stock k items : forall acc,
  (by_stock = true -> Dict.get k (df_columns prices_df) = None) ->
  Dict.get k (snd (fold_left (mark_step prices_df day by_stock) items acc))
  = Dict.get k (snd acc).
Proof.
  intros acc Hk. revert acc.
  induction items as [|it items IH]; intro acc; cbn [fold_left];
    [reflexivity|].
  rewrite IH.
  destruct (Dict.get (fst it) (df_columns prices_df)) as [col|] eqn:Hc;
    [|reflexivity].
  destruct (index_of day (df_index prices_df)); [|reflexivity].
  cbv zeta. cbn [snd]. destruct by_stock; [|reflexivity].
  apply DictFacts.get_set_other. intro Heq.
  rewrite <- Heq, Hc in Hk. specialize (Hk eq_refl). discriminate.
Qed.

Lemma mark_loop_rows prices_df day items : forall acc,
  snd (fold_left (mark_step prices_df day false) items acc) = snd acc.
Proof.
  induction items as [|it items IH]; intro acc; cbn [fold_left];
    [reflexivity|].
  rewrite IH.
  destruct (Dict.get _ _); [|reflexivity].
  now destruct (index_of _ _).
Qed.

(** The running [day_val] does not depend on [by_stock]. *)
Lemma mark_loop_value prices_df day items : forall acc1 acc2,
  fst acc1 = fst acc2 ->
  fst (fold_left (mark_step prices_df day true) items acc1)
  = fst (fold_left (mark_step prices_df day false) items acc2).
Proof.
  induction items as [|it items IH]; intros acc1 acc2 Hfst; cbn [fold_left];
    [assumption|].
  apply IH.
  destruct (Dict.get _ _); [|assumption].
  destruct (index_of _ _); [|assumption].
  cbv zeta. cbn [fst]. now rewrite Hfst.
Qed.

(** A key other than ["PortfolioValue"] that is no column of the price
    table holds in the emitted row what the row started with. *)
Lemma mark_to_market_get prices_df day by_stock st k :
  k <> "PortfolioValue" ->
  (by_stock = true -> Dict.get k (df_columns prices_df) = None) ->
  Dict.get k (mark_to_market prices_df day by_stock st)
  = Dict.get k [("Date", Timestamp day); ("Cash", Number (fst st))].
Proof.
  intros Hne Hk. unfold mark_to_market. cbv zeta.
  rewrite DictFacts.get_set_other by congruence.
  now rewrite mark_loop_get.
Qed.

(** A replay that does not raise emits one row per day, in order, each
    with its day under ["Date"], unless the per-symbol values are asked
    for and the price table has a column of that name. *)
Lemma replay_dates prices_df log by_stock days :
  (by_stock = true -> Dict.get "Date" (df_columns prices_df) = None) ->
  forall st rows,
    replay prices_df log by_stock st days = inr rows ->
    map (Dict.get "Date") rows = map (fun d => Some (Timestamp d)) days.
Proof.
  intro Hk. induction days as [|day later IH]; intros st rows; simpl.
  - intro H. inversion H. reflexivity.
  - destruct (apply_transactions st _) as [e|st']; [discriminate|].
    destruct (replay prices_df log by_stock st' later) as [e|rows'] eqn:Hr;
      [discriminate|].
    intro H. inversion H. cbn [map].
    rewrite (IH _ _ Hr), mark_to_market_get by (congruence || assumption).
    reflexivity.
Qed.

Section ReplayMore.
Context {E : Externals}.

(** X18. With a non-empty ledger, a replay that returns emits no row
    when no holding has close prices.  Otherwise, provided the final sort
    by date leaves a table in place whose dates already ascend, and
    provided no column of the price table is named "Date" when the
    per-symbol values are asked for (such a column would overwrite the
    date of the row), the table has exactly one row per distinct date of
    the price table, in strictly ascending order of its "Date" cells. *)
Theorem replay_emits_one_row_per_date self tx log by_stock self' rows :
  (by_stock = true ->
   Dict.get "Date" (df_columns (getAdjClosePrices self)) = None) ->
  (forall table days,
     map (Dict.get "Date") table = map (fun d => Some (Timestamp d)) days ->
     StronglySorted Z.lt days -> sort_rows table = table) ->
  getDynamicTimeSeries (Some (tx :: log)) by_stock self = (self', inr rows) ->
  let prices_df := getAdjClosePrices self in
  (frame_empty prices_df = true -> rows = [])
  /\ (frame_empty prices_df = false ->
      map (Dict.get "Date") rows
      = map (fun d => Some (Timestamp d))
            (unique (isort Z.leb (df_index prices_df)))
      /\ StronglySorted Z.lt (unique (isort Z.leb (df_index prices_df)))
      /\ forall d, In d (unique (isort Z.leb (df_index prices_df)))
                   <-> In d (df_index prices_df)).
Proof.
  intros Hname Hsort Hrun prices_df. subst prices_df.
  unfold getDynamicTimeSeries, bind, get_self, raise, ret in Hrun.
  cbv zeta in Hrun.
  destruct (frame_empty (getAdjClosePrices self)) eqn:Hf.
  - inversion Hrun. split; [reflexivity|discriminate].
  - split; [discriminate|]. intros _.
    destruct (replay _ _ _ _ _) as [e|rows'] eqn:Hr; [discriminate|].
    inversion Hrun; subst self' rows.
    apply (replay_dates _ _ _ _ Hname) in Hr.
    assert (Hasc : StronglySorted Z.lt
                     (unique (isort Z.leb
                                (df_index (getAdjClosePrices self)))))
      by apply unique_sorted, isortZ_sorted.
    rewrite (Hsort _ _ Hr Hasc).
    split; [exact Hr|]. split; [exact Hasc|].
    intro d. rewrite unique_In.
    split; intro H.
    + exact (Permutation_in _ (isortZ_perm _) H).
    + exact (Permutation_in _ (Permutation_sym (isortZ_perm _)) H).
Qed.


Lemma apply_transaction_cash_nonneg (st st' : float * Dict.t float) tx c :
  (exists q p, tx_Quantity tx = Some q /\ tx_Price tx = Some p
               /\ (tx_Type tx = sell -> 0 <= q * p)) ->
  fst st = Some c -> 0 <= c ->
  apply_transaction st tx = inr st' ->
  exists c', fst st' = Some c' /\ 0 <= c'.
Proof.
  intros (q & p & Hq & Hp & Hsell) Hst Hcash. unfold apply_transaction.
  cbv zeta. rewrite Hq, Hp, Hst. cbn [fmul fltb fadd fsub lift2].
  destruct (tx_Type tx).
  - destruct (Qltb c (q * p)) eqn:Hlt; intro H; inversion H; subst.
    + now exists c.
    + apply Qltb_ge in Hlt. cbn [fst]. eexists. split; [reflexivity|]. lra.
  - destruct (fltb _ _); [intro H; inversion H; subst; now exists c|].
    destruct (Dict.get _ _); [|discriminate].
    intro H. inversion H. cbn [fst]. specialize (Hsell eq_refl).
    eexists. split; [reflexivity|]. lra.
  - intro H. inversion H. subst. now exists c.
Qed.

Lemma apply_transactions_cash_nonneg txs :
  forall (st st' : float * Dict.t float) c,
  (forall tx, In tx txs ->
     exists q p, tx_Quantity tx = Some q /\ tx_Price tx = Some p
                 /\ (tx_Type tx = sell -> 0 <= q * p)) ->
  fst st = Some c -> 0 <= c ->
  apply_transactions st txs = inr st' ->
  exists c', fst st' = Some c' /\ 0 <= c'.
Proof.
  induction txs as [|tx txs IH]; intros st st' c Hall Hst Hcash; simpl.
  - intro H. inversion H. subst. now exists c.
  - destruct (apply_transaction st tx) as [e|st1] eqn:H1; [discriminate|].
    destruct (apply_transaction_cash_nonneg st st1 tx c
                (Hall tx (or_introl eq_refl)) Hst Hcash H1)
      as (c1 & Hc1 & Hc1').
    apply (IH st1 st' c1); [|assumption|assumption].
    intros tx' Hin. apply Hall. now right.
Qed.

(** X20. The replayed cash never goes negative.  For a ledger whose
    quantities and prices are numbers (no NaN cell) and whose sells have
    no negative quantity times price, starting from a cash that is a
    non-negative number, every emitted row holds a non-negative number
    under "Cash", because a buy that costs more than the cash at hand is
    skipped; when the per-symbol values are asked for this needs that no
    column of the price table is named "Cash". *)
Theorem replay_cash_never_negative
  prices_df log by_stock (st : float * Dict.t float) days rows cash0 :
  fst st = Some cash0 -> 0 <= cash0 ->
  (forall tx, In tx log ->
     exists q p, tx_Quantity tx = Some q /\ tx_Price tx = Some p
                 /\ (tx_Type tx = sell -> 0 <= q * p)) ->
  (by_stock = true -> Dict.get "Cash" (df_columns prices_df) = None) ->
  replay prices_df log by_stock st days = inr rows ->
  forall row, In row rows ->
    exists c, Dict.get "Cash" row = Some (Number (Some c)) /\ 0 <= c.
Proof.
  intros Hst Hcash Hall Hname. revert st rows cash0 Hst Hcash.
  induction days as [|day later IH]; intros st rows cash0 Hst Hcash; simpl.
  - intro H. inversion H. intros row [].
  - destruct (apply_transactions st _) as [e|st1] eqn:H1; [discriminate|].
    assert (Hday : forall tx,
              In tx (filter (fun tx => Z.eqb (tx_Date tx) day) log) ->
              exists q p, tx_Quantity tx = Some q /\ tx_Price tx = Some p
                          /\ (tx_Type tx = sell -> 0 <= q * p))
      by (intros tx Hin; apply filter_In in Hin; now apply Hall).
    destruct (apply_transactions_cash_nonneg _ st st1 cash0 Hday Hst Hcash H1)
      as (c1 & Hc1 & Hc1').
    destruct (replay prices_df log by_stock st1 later) as [e|rows1] eqn:H2;
      [discriminate|].
    intro H. inversion H. subst rows.
    intros row [<-|Hin].
    + exists c1. split; [|exact Hc1'].
      rewrite mark_to_market_get by (congruence || assumption).
      cbn. now rewrite Hc1.
    + exact (IH _ _ _ Hc1 Hc1' H2 row Hin).
Qed.

Lemma filter_filter_date (keep : Transaction -> bool) day log :
  (forall tx, Z.eqb (tx_Date tx) day = true -> keep tx = true) ->
  filter (fun tx => Z.eqb (tx_Date tx) day) (filter keep log)
  = filter (fun tx => Z.eqb (tx_Date tx) day) log.
Proof.
  intro Hkeep. induction log as [|tx log IH]; simpl; [reflexivity|].
  destruct (keep tx) eqn:Hk; simpl; rewrite IH; [reflexivity|].
  destruct (Z.eqb (tx_Date tx) day) eqn:Hd; [|reflexivity].
  rewrite (Hkeep tx Hd) in Hk. discriminate.
Qed.

Lemma replay_filtered keep prices_df log by_stock days : forall st,
  (forall tx day, In day days -> Z.eqb (tx_Date tx) day = true ->
                  keep tx = true) ->
  replay prices_df (filter keep log) by_stock st days
  = replay prices_df log by_stock st days.
Proof.
  induction days as [|day later IH]; intros st Hkeep; simpl; [reflexivity|].
  rewrite filter_filter_date by (intros tx; apply Hkeep; now left).
  destruct (apply_transactions st _) as [e|st1]; [reflexivity|].
  rewrite IH; [reflexivity|].
  intros tx d Hin. apply Hkeep. now right.
Qed.

(** X21. Transactions dated on a day that is not among the replayed days
    are never applied: dropping them from the ledger changes nothing in
    the result. *)
Theorem replay_ignores_other_dates prices_df log by_stock st days :
  replay prices_df
         (filter (fun tx => existsb (Z.eqb (tx_Date tx)) days) log)
         by_stock st days
  = replay prices_df log by_stock st days.
Proof.
  apply replay_filtered. intros tx day Hin Hd.
  apply existsb_exists. exists day. split; assumption.
Qed.

(** X22. The option [by_stock] only adds the per-symbol values, as long
    as no column of the price table is named "Date" or "Cash": the replay
    raises the same error with and without it, and otherwise emits as
    many rows; a row emitted without it has the three keys "Date", "Cash"
    and "PortfolioValue", and the row emitted with it holds the same
    cells under these keys. *)
Theorem replay_by_stock_only_adds_columns prices_df log st days :
  Dict.get "Date" (df_columns prices_df) = None ->
  Dict.get "Cash" (df_columns prices_df) = None ->
  match replay prices_df log false st days,
        replay prices_df log true st days with
  | inl e0, inl e1 => e0 = e1
  | inr rows0, inr rows1 =>
      Forall2 (fun r0 r1 : Row =>
                 Dict.keys r0 = ["Date"; "Cash"; "PortfolioValue"]
                 /\ forall k, In k (Dict.keys r0) ->
                              Dict.get k r1 = Dict.get k r0)
              rows0 rows1
  | _, _ => False
  end.
Proof.
  intros HDate HCash. revert st.
  induction days as [|day later IH]; intro st; simpl; [constructor|].
  destruct (apply_transactions st _) as [e|st1]; [reflexivity|].
  specialize (IH st1).
  destruct (replay prices_df log false st1 later) as [e0|rows0],
           (replay prices_df log true st1 later) as [e1|rows1];
    try assumption; try contradiction.
  constructor; [|assumption].
  assert (Hkeys : Dict.keys (mark_to_market prices_df day false st1)
                  = ["Date"; "Cash"; "PortfolioValue"]).
  { unfold mark_to_market. cbv zeta. now rewrite mark_loop_rows. }
  split; [exact Hkeys|].
  intros k Hk. rewrite Hkeys in Hk.
  destruct Hk as [<-|[<-|[<-|[]]]].
  - now rewrite !mark_to_market_get by (congruence || auto).
  - now rewrite !mark_to_market_get by (congruence || auto).
  - unfold mark_to_market. cbv zeta. rewrite !DictFacts.get_set_same.
    now rewrite (mark_loop_value prices_df day (snd st1) _ _ eq_refl).
Qed.

Lemma close_frame_untouched (l : list Stock) df0 :
  (forall st, In st l -> close st = []) ->
  fold_left
    (fun data st =>
       let c := getClose st in
       if negb (series_empty c) then assign_column (symbol st) c data
       else data) l df0
  = df0.
Proof.
  induction l as [|st l IH]; intro Hall; cbn [fold_left]; [reflexivity|].
  change (getClose st) with (close st).
  rewrite (Hall st (or_introl eq_refl)). cbn [series_empty negb].
  apply IH. intros st' Hin. apply Hall. now right.
Qed.

(** X23. When no holding has a close series (in particular when nothing
    is held) the replay returns the empty table for every ledger: no
    transaction is applied and no row is emitted. *)
Theorem replay_without_prices_is_empty self transaction_log by_stock :
  (forall st, In st (Dict.values (stocks self)) -> close st = []) ->
  getDynamicTimeSeries transaction_log by_stock self = (self, inr []).
Proof.
  intro Hall. destruct transaction_log as [[|tx log]|]; try reflexivity.
  unfold getDynamicTimeSeries, bind, get_self, ret, getAdjClosePrices.
  cbv zeta. pose proof (close_frame_untouched _ empty_frame Hall) as Hdf.
  cbv zeta in Hdf. now rewrite Hdf.
Qed.

(** X28. The replay reads the holdings and the cash balance and nothing
    else, and writes nothing: two portfolios with the same holdings and
    cash give the same table (or error) whatever their weights and caches,
    and the portfolio is after the call what it was before. *)
Theorem replay_reads_holdings_and_cash_only
  transaction_log by_stock self other :
  stocks other = stocks self ->
  cash_balance other = cash_balance self ->
  outcome (getDynamicTimeSeries transaction_log by_stock other)
  = outcome (getDynamicTimeSeries transaction_log by_stock self)
  /\ state_after (getDynamicTimeSeries transaction_log by_stock self) = self
  /\ state_after (getDynamicTimeSeries transaction_log by_stock other) = other.
Proof.
  intros Hs Hc. split; [|split; apply getDynamicTimeSeries_state].
  destruct transaction_log as [[|tx log]|]; try reflexivity.
  unfold getDynamicTimeSeries, bind, get_self, raise, ret, outcome,
    getAdjClosePrices.
  cbn [fst snd]. rewrite Hs, Hc.
  destruct (frame_empty _); [reflexivity|].
  now destruct (replay _ _ _ _ _).
Qed.

End ReplayMore.

(** ** Tables built from the holdings *)

Section Frames.
Variable series_of : Stock -> Series.

Local Abbreviation column_step :=
  (fun (df : DataFrame) (st : Stock) =>
     let c := series_of st in
     if negb (series_empty c) then assign_column (symbol st) c df else df).

Lemma assign_column_index_kept name s df :
  df_index df <> [] -> df_index (assign_column name s df) = df_index df.
Proof.
  unfold assign_column. destruct (df_index df) as [|i idx]; [congruence|].
  now destruct (df_columns df).
Qed.

Lemma column_fold_index_kept l : forall df0,
  df_index df0 <> [] -> df_index (fold_left column_step l df0) = df_index df0.
Proof.
  induction l as [|st l IH]; intros df0 Hne; cbn [fold_left]; [reflexivity|].
  cbv zeta. destruct (negb (series_empty (series_of st))).
  - rewrite IH; rewrite assign_column_index_kept; auto.
  - now apply IH.
Qed.

Lemma column_fold_untouched l df0 :
  (forall st, In st l -> series_of st = []) ->
  fold_left column_step l df0 = df0.
Proof.
  induction l as [|st l IH]; intro Hall; cbn [fold_left]; [reflexivity|].
  cbv zeta. rewrite (Hall st (or_introl eq_refl)). cbn [series_empty negb].
  apply IH. intros st' Hin. apply Hall. now right.
Qed.

(** The index of the table is the index of the first non-empty series. *)
Lemma column_fold_index l1 st l2 :
  (forall s, In s l1 -> series_of s = []) ->
  series_of st <> [] ->
  df_index (fold_left column_step (l1 ++ st :: l2) empty_frame)
  = map fst (series_of st).
Proof.
  intros Hall Hne. rewrite fold_left_app, (column_fold_untouched _ _ Hall).
  cbn [fold_left]. cbv zeta.
  destruct (series_of st) as [|c r] eqn:Hs; [congruence|].
  cbn [series_empty negb].
  rewrite column_fold_index_kept; unfold assign_column; cbn; [reflexivity|].
  discriminate.
Qed.

Lemma assign_column_aligned name s df :
  Forall (fun c => List.length (snd c) = List.length (df_index df))
         (df_columns df) ->
  let df' := assign_column name s df in
  Forall (fun c => List.length (snd c) = List.length (df_index df'))
         (df_columns df').
Proof.
  intros Hal. unfold assign_column.
  destruct (df_index df) as [|i idx] eqn:Hi;
    destruct (df_columns df) as [|c cols] eqn:Hc; cbn [df_index df_columns].
  - cbn. constructor; [|constructor]. cbn. now rewrite !length_map.
  - apply (Forall_set (fun col : list float => List.length col = List.length (@nil date)));
      [exact Hal|]. now rewrite length_map.
  - cbn. constructor; [|constructor]. cbn. now rewrite length_map.
  - apply (Forall_set (fun col : list float =>
                         List.length col = List.length (i :: idx)));
      [exact Hal|]. now rewrite length_map.
Qed.

Lemma column_fold_aligned l : forall df0,
  Forall (fun c => List.length (snd c) = List.length (df_index df0))
         (df_columns df0) ->
  let df := fold_left column_step l df0 in
  Forall (fun c => List.length (snd c) = List.length (df_index df))
         (df_columns df).
Proof.
  induction l as [|st l IH]; intros df0 Hal; cbn [fold_left]; [assumption|].
  cbv zeta. apply IH. destruct (negb (series_empty (series_of st)));
    [now apply assign_column_aligned|assumption].
Qed.

End Frames.

(** X24. The price table is aligned and takes its dates from one holding:
    every column has exactly one cell per date of the index, and the
    index is the date list of the first holding, in insertion order, that
    has close prices (dates that only later holdings have do not enter
    the table). *)
Theorem price_table_index_and_alignment self :
  let prices_df := getAdjClosePrices self in
  Forall (fun c => List.length (snd c) = List.length (df_index prices_df))
         (df_columns prices_df)
  /\ forall l1 st l2,
       Dict.values (stocks self) = l1 ++ st :: l2 ->
       (forall s, In s l1 -> close s = []) ->
       close st <> [] ->
       df_index prices_df = map fst (close st).
Proof.
  cbv zeta. unfold getAdjClosePrices. split.
  - apply (column_fold_aligned getClose). constructor.
  - intros l1 st l2 Hvals Hall Hne. rewrite Hvals.
    now apply (column_fold_index getClose).
Qed.

Lemma combine_seq_dates {B} (f : nat -> B) (idx : list date) : forall k,
  map fst (map (fun id : nat * date => (snd id, f (fst id)))
               (combine (seq k (List.length idx)) idx)) = idx.
Proof.
  induction idx as [|d idx IH]; intro k; simpl; [reflexivity|].
  now rewrite IH.
Qed.

(** X25. When the weighted adjusted returns can be formed, their dates
    are those of the first holding, in insertion order, that has an
    adjusted-return series. *)
Theorem adjusted_returns_dates self s l1 st l2 :
  outcome (getAdjustedReturns self) = inr s ->
  Dict.values (stocks self) = l1 ++ st :: l2 ->
  (forall s', In s' l1 -> adjusted_returns s' = []) ->
  adjusted_returns st <> [] ->
  map fst s = map fst (adjusted_returns st).
Proof.
  intros Hrun Hvals Hall Hne.
  pose proof (column_fold_index getAdjustedReturns_stock l1 st l2 Hall Hne)
    as Hidx.
  rewrite <- Hvals in Hidx. cbv zeta in Hidx.
  unfold getAdjustedReturns, bind, get_self, raise, ret, outcome in Hrun.
  cbv zeta in Hrun. cbn [fst snd] in Hrun.
  destruct (frame_empty _) eqn:Hf.
  - exfalso.
    assert (Hex : exists st0, In st0 (Dict.values (stocks self))
                              /\ adjusted_returns st0 <> []).
    { exists st. split; [rewrite Hvals; apply in_elt|assumption]. }
    pose proof (adjusted_frame_filled _ Hex) as Hfilled.
    cbv zeta in Hfilled. congruence.
  - unfold dot in Hrun. destruct (negb _); cbn [snd] in Hrun; [discriminate|].
    inversion Hrun. rewrite combine_seq_dates. exact Hidx.
Qed.

(** ** Bookkeeping of the simulator *)

Lemma roll_forward_spec d :
  (d <= roll_forward d)%Z /\ (0 <= weekday (roll_forward d) <= 4)%Z.
Proof.
  unfold roll_forward, weekday.
  destruct (Z.eqb_spec ((d + 3) mod 7) 5) as [H5|H5];
    [|destruct (Z.eqb_spec ((d + 3) mod 7) 6) as [H6|H6]];
    split; try lia.
  - replace (d + 2 + 3)%Z with ((d + 3) + 2)%Z by lia.
    rewrite Z.add_mod, H5 by lia. now vm_compute.
  - replace (d + 1 + 3)%Z with ((d + 3) + 1)%Z by lia.
    rewrite Z.add_mod, H6 by lia. now vm_compute.
  - pose proof (Z.mod_pos_bound (d + 3) 7 ltac:(lia)). lia.
Qed.

Lemma bdate_range_spec periods : forall start,
  List.length (bdate_range start periods) = periods
  /\ Forall (fun d => (start <= d)%Z /\ (0 <= weekday d <= 4)%Z)
            (bdate_range start periods)
  /\ StronglySorted Z.lt (bdate_range start periods).
Proof.
  induction periods as [|n IH]; intro start; cbn [bdate_range].
  - repeat split; constructor.
  - destruct (IH (roll_forward start + 1)%Z) as (Hlen & Hall & Hs).
    destruct (roll_forward_spec start) as (Hge & Hwd).
    split; [cbn; now rewrite Hlen|]. split.
    + constructor; [now split|].
      eapply Forall_impl; [|exact Hall]. cbv beta. intros d [H1 H2].
      split; [lia|assumption].
    + constructor; [assumption|].
      eapply Forall_impl; [|exact Hall]. cbv beta. intros d [H1 _]. lia.
Qed.

Section MonteCarloMore.
Context {E : Externals}.

Lemma simulated_columns_names drift std_dev v0 num_days l : forall cols g,
  Dict.keys
    (fst (fold_left (simulate_path drift std_dev v0 num_days) l (cols, g)))
  = Dict.keys cols
    ++ map (fun i => ("Simulation_" ++ str (i + 1)%nat)%string) l.
Proof.
  induction l as [|i l IH]; intros cols g; cbn [fold_left map].
  - now rewrite app_nil_r.
  - unfold simulate_path at 2. cbn [fst snd]. rewrite IH.
    unfold Dict.keys. rewrite map_app. cbn [map fst].
    now rewrite <- app_assoc.
Qed.

(** X26. A simulation over at least one defined return that returns a
    table returns one column per path, named Simulation_1 ... Simulation_N
    in order, indexed by [num_days] strictly ascending dates that all fall
    on Monday to Friday after the last return date; the table is stored in
    the portfolio and [getSimulatedMetrics] hands out the metrics
    aggregated from it. *)
Theorem simulation_table_shape
  num_simulations num_days (g0 : RandomState) today self pr last table g' :
  outcome (getPortfolioReturns self) = inr pr ->
  last_date (dropna pr) = Some last ->
  let run := monteCarloSimulation num_simulations num_days g0 today self in
  outcome run = inr (table, g') ->
  Dict.keys (df_columns table)
  = map (fun i => ("Simulation_" ++ str (i + 1)%nat)%string)
        (seq 0 num_simulations)
  /\ List.length (df_index table) = num_days
  /\ StronglySorted Z.lt (df_index table)
  /\ Forall (fun d => (last < d)%Z /\ (0 <= weekday d <= 4)%Z) (df_index table)
  /\ simulated_portfolio_values (state_after run) = Some table
  /\ aggregate_metrics table = inr (getSimulatedMetrics (state_after run)).
Proof.
  intros Hrun Hlast run. subst run.
  destruct (getPortfolioReturns self) as [self' res] eqn:Hfirst.
  unfold outcome in Hrun. cbn [snd] in Hrun. subst res.
  assert (Hempty : series_empty (dropna pr) = false).
  { destruct (dropna pr); [discriminate|reflexivity]. }
  unfold monteCarloSimulation, bind. rewrite Hfirst, Hempty, Hlast.
  unfold get_self, modify, raise, ret, outcome, state_after.
  cbn [fst snd].
  destruct (aggregate_metrics _) as [e|metrics] eqn:Hagg; cbn [fst snd];
    [discriminate|].
  intro H. inversion H; subst table g'. clear H.
  cbn [df_index df_columns].
  destruct (bdate_range_spec num_days (last + 1)%Z) as (Hlen & Hall & Hs).
  split; [now rewrite simulated_columns_names|].
  split; [exact Hlen|]. split; [exact Hs|]. split.
  - eapply Forall_impl; [|exact Hall]. cbv beta. intros d [H1 H2].
    split; [lia|assumption].
  - split; [reflexivity|]. unfold getSimulatedMetrics.
    cbn [simulated_metrics with_simulated_metrics]. exact Hagg.
Qed.

(** Without a defined return the simulator does nothing: it returns
    the empty table and the generator it was given, draws nothing, and
    stores neither a table nor metrics. *)
Theorem simulation_without_returns
  num_simulations num_days (g0 : RandomState) today self pr :
  outcome (getPortfolioReturns self) = inr pr ->
  defined pr = [] ->
  monteCarloSimulation num_simulations num_days g0 today self
  = (state_after (getPortfolioReturns self), inr (empty_frame, g0)).
Proof.
  intros Hrun Hdef.
  destruct (getPortfolioReturns self) as [self' res] eqn:Hfirst.
  unfold outcome in Hrun. cbn [snd] in Hrun. subst res.
  apply dropna_empty in Hdef.
  unfold monteCarloSimulation, bind. now rewrite Hfirst, Hdef.
Qed.

(** X27. The excess returns are the defined returns, date by date, each
    lowered by the same daily rate; computing them caches both the
    returns and the excess returns. *)
Theorem excess_returns_shape self pr :
  portfolio_excess_returns self = None ->
  outcome (getPortfolioReturns self) = inr pr ->
  defined pr <> [] ->
  let daily_rf := power (1 + RF self) (1 / 252) - 1 in
  let er := map (fun c => (fst c, fsub (snd c) (Some daily_rf))) (dropna pr) in
  outcome (getPortfolioExcessReturns self) = inr er
  /\ map fst er = map fst (dropna pr)
  /\ defined er = map (fun x => x - daily_rf) (defined pr)
  /\ portfolio_returns (state_after (getPortfolioExcessReturns self)) = Some pr
  /\ portfolio_excess_returns (state_after (getPortfolioExcessReturns self))
     = Some er.
Proof.
  intros Hcache Hrun Hne daily_rf er.
  assert (Hempty : series_empty (dropna pr) = false).
  { destruct (series_empty (dropna pr)) eqn:He; [|reflexivity].
    apply dropna_empty in He. contradiction. }
  destruct (getPortfolioReturns_run self) as [(e & He)|(r & Hr)];
    [rewrite He in Hrun; discriminate|].
  rewrite Hr in Hrun. unfold outcome in Hrun. cbn [snd] in Hrun.
  inversion Hrun; subst r. clear Hrun.
  unfold getPortfolioExcessReturns, bind, get_self, modify, ret.
  rewrite Hcache, Hr, Hempty.
  unfold outcome, state_after. cbn [fst snd RF with_portfolio_returns
    portfolio_returns portfolio_excess_returns with_portfolio_excess_returns].
  fold daily_rf. fold er.
  split; [reflexivity|]. split; [|split; [|split; reflexivity]].
  - subst er. rewrite map_map. reflexivity.
  - subst er. clear. induction pr as [|[d [x|]] pr IH]; simpl;
      [reflexivity| |assumption].
    now rewrite IH.
Qed.

End MonteCarloMore.

(** ** Concrete runs of the further properties *)

Lemma update_stock_keeps_other_holdings_witness :
  Dict.get "B"
    (stocks (state_after
               (update_stock (E := plain_externals) "A" 10 10 false
                             two_holdings)))
  = Dict.get "B" (stocks two_holdings).
Proof.
  apply (update_stock_keeps_other_holdings (E := plain_externals)).
  discriminate.
Defined.

Lemma sell_entire_amount_removes_holding_witness :
  stocks (state_after
            (update_stock (E := plain_externals) "A" 20 5 false one_holding))
  = []
  /\ weights (state_after
                (update_stock (E := plain_externals) "A" 20 5 false one_holding))
     = [].
Proof.
  assert (Hwf : Dict.wf (stocks one_holding)).
  { unfold Dict.wf. simpl. constructor; [simpl; tauto|constructor]. }
  destruct (sell_entire_amount_removes_holding (E := plain_externals)
              one_holding "A" 20 5 (holding "A" 100 100) Hwf eq_refl eq_refl)
    as (H1 & _ & H3).
  split; [exact H1|exact (proj2 (H3 eq_refl))].
Defined.

Lemma update_stock_keeps_amounts_positive_witness :
  Forall (fun it => 0 < getAmount (snd it))
    (stocks (state_after
               (update_stock (E := plain_externals) "A" 5 10 false
                             two_holdings))).
Proof.
  apply (update_stock_keeps_amounts_positive (E := plain_externals)).
  - repeat constructor.
  - discriminate.
Defined.

Lemma update_stock_on_positive_amounts_witness :
  outcome (update_stock (E := plain_externals) "C" 3 7 true two_holdings)
  = inr tt.
Proof.
  apply (update_stock_on_positive_amounts (E := plain_externals)
           two_holdings "C" 3 7 true).
  - repeat constructor.
  - intros _. reflexivity.
  - reflexivity.
Defined.

Lemma init_weights_witness :
  total_value (@nil (string * Stock)) == 0
  <-> init [] 0 1000 = inl (ValueError "Total portfolio value is zero.").
Proof.
  apply (init_weights [] 0 1000). constructor.
Defined.

Lemma returns_need_every_weighted_symbol_witness :
  getAdjustedReturns one_without_returns
  = (one_without_returns, inl (ValueError "matrices are not aligned")).
Proof.
  assert (Hb : In "B" (Dict.keys (weights one_without_returns)))
    by (right; left; reflexivity).
  assert (Hnone : forall st,
            In st (Dict.values (stocks one_without_returns)) ->
            symbol st = "B" -> adjusted_returns st = [])
    by (intros st [<-|[<-|[]]]; [discriminate|reflexivity]).
  assert (Hsome : exists st,
            In st (Dict.values (stocks one_without_returns))
            /\ adjusted_returns st <> [])
    by (exists (holding_with_return "A" 100 (1 # 10));
        split; [left; reflexivity|discriminate]).
  exact (proj1 (returns_need_every_weighted_symbol one_without_returns "B"
                  Hb Hnone Hsome)).
Defined.

Lemma no_return_data_means_not_available_witness :
  getMaxDrawdown one_holding
  = (with_portfolio_returns (Some []) one_holding, inr NaN).
Proof.
  apply (no_return_data_means_not_available one_holding).
  - intros st [<-|[]]. reflexivity.
  - reflexivity.
Defined.

Lemma VaR_level_out_of_range_witness :
  outcome (getVaR 2 up_then_down)
  = inl (ValueError "Percentiles must be in the range [0, 100]").
Proof.
  apply (VaR_level_out_of_range up_then_down 2
           [(1%Z, Some (1 # 10)); (2%Z, Some (- (1 # 2)))]).
  - reflexivity.
  - discriminate.
  - right. reflexivity.
Defined.




Lemma leave_one_out_zero_remainder_witness :
  simulatePortfolioWithoutAsset (E := plain_externals) "A" with_zero_holding
  = (with_zero_holding, inl (ValueError "Total portfolio value is zero.")).
Proof.
  apply (leave_one_out_zero_remainder (E := plain_externals)
           with_zero_holding "A").
  - discriminate.
  - discriminate.
  - reflexivity.
Defined.

(** The table sort of the stand-in leaves ascending dates in place. *)
Lemma plain_sort_rows_in_place (table : list Row) days :
  map (Dict.get "Date") table = map (fun d => Some (Timestamp d)) days ->
  StronglySorted Z.lt days ->
  sort_rows (Externals := plain_externals) table = table.
Proof.
  intros Hcol Hasc. apply isort_in_order.
  revert table Hcol. induction Hasc as [|d days Hs IH Hall]; intros table Hcol.
  - destruct table; [constructor|discriminate].
  - destruct table as [|r table]; [discriminate|].
    cbn [map] in Hcol. inversion Hcol as [[Hr Htl]].
    constructor; [now apply IH|].
    rewrite Forall_forall in *. intros r' Hin.
    apply (in_map (Dict.get "Date")) in Hin. rewrite Htl in Hin.
    apply in_map_iff in Hin. destruct Hin as (d' & Hd' & Hin').
    rewrite Hr, <- Hd'. apply Z.leb_le. specialize (Hall d' Hin'). lia.
Qed.

Lemma replay_emits_one_row_per_date_witness :
  map (Dict.get "Date")
      [[("Date", Timestamp 1%Z); ("Cash", Number (Some 990));
        ("A", Number (Some 40)); ("PortfolioValue", Number (Some 1030))];
       [("Date", Timestamp 2%Z); ("Cash", Number (Some 990));
        ("A", Number (Some 44)); ("PortfolioValue", Number (Some 1034))]]
  = map (fun d => Some (Timestamp d))
        (unique (isort Z.leb (df_index (getAdjClosePrices quoted)))).
Proof.
  assert (Hrun :
            getDynamicTimeSeries (E := plain_externals)
              (Some [mkTransaction 1%Z buy "A" (Some 1) (Some 10)]) true quoted
            = (quoted,
               inr [[("Date", Timestamp 1%Z); ("Cash", Number (Some 990));
                     ("A", Number (Some 40));
                     ("PortfolioValue", Number (Some 1030))];
                    [("Date", Timestamp 2%Z); ("Cash", Number (Some 990));
                     ("A", Number (Some 44));
                     ("PortfolioValue", Number (Some 1034))]]))
    by (vm_compute; reflexivity).
  exact (proj1 (proj2 (replay_emits_one_row_per_date (E := plain_externals)
                         quoted _ _ true _ _ (fun _ => eq_refl)
                         plain_sort_rows_in_place Hrun) eq_refl)).
Defined.

Lemma replay_cash_never_negative_witness :
  exists c,
    Dict.get "Cash"
      [("Date", Timestamp 1%Z); ("Cash", Number (Some 990));
       ("A", Number (Some 40)); ("PortfolioValue", Number (Some 1030))]
    = Some (Number (Some c))
    /\ 0 <= c.
Proof.
  assert (Hrun :
            replay (getAdjClosePrices quoted)
                   [mkTransaction 1%Z buy "A" (Some 1) (Some 10)] true
                   (Some 1000, [("A", Some 3)]) [1%Z; 2%Z]
            = inr [[("Date", Timestamp 1%Z); ("Cash", Number (Some 990));
                    ("A", Number (Some 40));
                    ("PortfolioValue", Number (Some 1030))];
                   [("Date", Timestamp 2%Z); ("Cash", Number (Some 990));
                    ("A", Number (Some 44));
                    ("PortfolioValue", Number (Some 1034))]])
    by (vm_compute; reflexivity).
  assert (Hcash : 0 <= 1000) by (vm_compute; discriminate).
  assert (Hcells : forall tx,
            In tx [mkTransaction 1%Z buy "A" (Some 1) (Some 10)] ->
            exists q p, tx_Quantity tx = Some q /\ tx_Price tx = Some p
                        /\ (tx_Type tx = sell -> 0 <= q * p)).
  { intros tx [<-|[]]. exists 1, 10.
    split; [reflexivity|]. split; [reflexivity|discriminate]. }
  apply (replay_cash_never_negative (getAdjClosePrices quoted) _ true
           (Some 1000, [("A", Some 3)]) _ _
           1000 eq_refl Hcash Hcells (fun _ => eq_refl) Hrun).
  left. reflexivity.
Defined.

Lemma replay_by_stock_only_adds_columns_witness :
  replay (getAdjClosePrices quoted)
         [mkTransaction 1%Z buy "A" (Some 1) (Some 10)] false
         (Some 1000, [("A", Some 3)]) [1%Z; 2%Z]
  = inr [[("Date", Timestamp 1%Z); ("Cash", Number (Some 990));
          ("PortfolioValue", Number (Some 1030))];
         [("Date", Timestamp 2%Z); ("Cash", Number (Some 990));
          ("PortfolioValue", Number (Some 1034))]]
  /\ match replay (getAdjClosePrices quoted)
                  [mkTransaction 1%Z buy "A" (Some 1) (Some 10)] false
                  (Some 1000, [("A", Some 3)]) [1%Z; 2%Z],
            replay (getAdjClosePrices quoted)
                  [mkTransaction 1%Z buy "A" (Some 1) (Some 10)] true
                  (Some 1000, [("A", Some 3)]) [1%Z; 2%Z] with
     | inl e0, inl e1 => e0 = e1
     | inr rows0, inr rows1 =>
         Forall2 (fun r0 r1 : Row =>
                    Dict.keys r0 = ["Date"; "Cash"; "PortfolioValue"]
                    /\ forall k, In k (Dict.keys r0) ->
                                 Dict.get k r1 = Dict.get k r0)
                 rows0 rows1
     | _, _ => False
     end.
Proof.
  split; [vm_compute; reflexivity|].
  apply (replay_by_stock_only_adds_columns (getAdjClosePrices quoted));
    reflexivity.
Defined.

Lemma replay_without_prices_is_empty_witness :
  getDynamicTimeSeries (E := plain_externals)
    (Some [mkTransaction 1%Z buy "A" (Some 1) (Some 10)]) true one_holding
  = (one_holding, inr []).
Proof.
  apply (replay_without_prices_is_empty (E := plain_externals)).
  intros st [<-|[]]. reflexivity.
Defined.

Lemma adjusted_returns_dates_witness :
  map fst [(1%Z, Some (80 # 400))]
  = map fst (adjusted_returns (holding_with_return "A" 100 (1 # 10))).
Proof.
  apply (adjusted_returns_dates two_holdings [(1%Z, Some (80 # 400))] []
           (holding_with_return "A" 100 (1 # 10))
           [holding_with_return "B" 100 (3 # 10)]).
  - reflexivity.
  - reflexivity.
  - intros s' [].
  - discriminate.
Defined.

Lemma simulation_table_shape_witness :
  let run :=
    monteCarloSimulation (E := plain_externals) 2 3 0%nat 0%Z up_then_down in
  exists table g',
    outcome run = inr (table, g')
    /\ Dict.keys (df_columns table) = ["Simulation_1"; "Simulation_2"]
    /\ List.length (df_index table) = 3%nat.
Proof.
  cbv zeta. eexists. eexists.
  match goal with |- ?A /\ _ =>
    assert (Hrun : A) by (vm_compute; reflexivity) end.
  split; [exact Hrun|].
  destruct (simulation_table_shape (E := plain_externals)
              2 3 0%nat 0%Z up_then_down
              [(1%Z, Some (1 # 10)); (2%Z, Some (- (1 # 2)))] 2%Z _ _
              eq_refl eq_refl Hrun) as (Hk & Hl & _).
  split; [exact Hk|exact Hl].
Defined.

Lemma simulation_without_returns_witness :
  monteCarloSimulation (E := plain_externals) 5 5 7%nat 0%Z one_holding
  = (state_after (getPortfolioReturns one_holding), inr (empty_frame, 7%nat)).
Proof.
  apply (simulation_without_returns (E := plain_externals)
           5 5 7%nat 0%Z one_holding []); reflexivity.
Defined.

Lemma excess_returns_shape_witness :
  map fst
      (map (fun c : date * float =>
              (fst c,
               fsub (snd c)
                    (Some (power (Externals := plain_externals)
                                 (1 + RF up_then_down) (1 / 252) - 1))))
           (dropna [(1%Z, Some (1 # 10)); (2%Z, Some (- (1 # 2)))]))
  = map fst (dropna [(1%Z, Some (1 # 10)); (2%Z, Some (- (1 # 2)))]).
Proof.
  exact (proj1 (proj2
    (excess_returns_shape (E := plain_externals) up_then_down
       [(1%Z, Some (1 # 10)); (2%Z, Some (- (1 # 2)))]
       eq_refl eq_refl ltac:(discriminate)))).
Defined.

Lemma replay_reads_holdings_and_cash_only_witness :
  outcome (getDynamicTimeSeries (E := plain_externals)
             (Some [mkTransaction 1%Z buy "A" (Some 1) (Some 10)]) true
             (with_weights [] (with_portfolio_returns (Some []) quoted)))
  = outcome (getDynamicTimeSeries (E := plain_externals)
               (Some [mkTransaction 1%Z buy "A" (Some 1) (Some 10)]) true quoted).
Proof.
  exact (proj1 (replay_reads_holdings_and_cash_only (E := plain_externals)
                  (Some [mkTransaction 1%Z buy "A" (Some 1) (Some 10)]) true quoted
                  (with_weights [] (with_portfolio_returns (Some []) quoted))
                  eq_refl eq_refl)).
Defined.
